(** * Fledermaus-Tracking frontend: analysis orchestration, segment
    selection, debounced settings and CSV export.

    A shallow embedding of the React front end: the hook
    [useVideoAnalysis] in its two versions, [utils/api-real.js],
    [components/UploadSection.jsx], the [Settings] component as
    [components/MainContent.jsx] mounts it,
    [components/ResultsSection.jsx] and [utils/export.js], together
    with the properties the specification states about them.

    Conventions of the embedding.
    - JavaScript numbers that the program only stores, compares, adds or
      divides are rationals ([Q]); numbers that it prints are integers
      ([Z]).  IEEE rounding is not modelled.
    - An [async] function is cut at its [await]s: every piece between two
      suspension points is one atomic function on the state (the event
      loop runs it to completion), and a pending continuation is a
      [Phase] kept in a task list.
    - [try]/[catch]/[finally] are combinators of a state-and-exception
      monad; [useState] cells are record fields; an event handler runs on
      the rendered state and its updates are visible to the next event.
    - Everything a handler does to the outside (network call, timer,
      console, alert callback, file download) is appended to a trace. *)

From Stdlib Require Import ZArith QArith Qround List String Ascii Bool Lia Arith.
From Stdlib Require Import DecimalString Sorted.
Import ListNotations.

Set Implicit Arguments.
Set Warnings "-register-all".

(* ================================================================== *)
(** * Part I: the program *)
(* ================================================================== *)

(** ** JavaScript values, errors and completions *)

Module Js.

Local Open Scope string_scope.

(** A thrown [Error]; only [error.message] is ever read. *)
Record JsError : Type := mkError { message : string }.

(** How a piece of code completes: [return v] or [throw e]. *)
Inductive Outcome (A : Type) : Type :=
| Returned (a : A)
| Thrown (e : JsError).
Arguments Returned {A} a.
Arguments Thrown {A} e.

(** JavaScript values as far as [export.js] can observe them.  The
    fields of an object are listed in the order [Object.values] visits
    them (creation order for the non-index keys used here). *)
Inductive JsValue : Type :=
| JUndefined
| JNull
| JBool (b : bool)
| JNum (z : Z)
| JStr (s : string)
| JArr (elems : list JsValue)
| JObj (fields : list (string * JsValue)).

(** [String(z)] for a safe integer, one of at most 2^53 - 1 in
    magnitude: JavaScript prints such a number with all its digits.
    Beyond that range a number is rounded to a double, and from 10^21
    on it prints with an exponent; the statements about the digits of
    exported numbers assume the range ([ExportFull.safe]). *)
Definition showZ (z : Z) : string := NilZero.string_of_int (Z.to_int z).

(** [String(n).padStart(2, '0')]. *)
Definition padStart2 (s : string) : string :=
  match String.length s with
  | 0%nat => "00"
  | 1%nat => "0" ++ s
  | _ => s
  end.

(** [ToString] on the values that convert, and [Array.prototype.join]:
    [undefined] and [null] print as the empty string, everything else
    through [ToString].  An object prints through
    [Object.prototype.toString]; an object with an own [toString]
    property hides that method and does not convert.  The conversion
    with that error path is [ExportFull.toString], which agrees with
    this one wherever it returns. *)
Fixpoint toString (v : JsValue) : string :=
  match v with
  | JUndefined => "undefined"
  | JNull => "null"
  | JBool true => "true"
  | JBool false => "false"
  | JNum z => showZ z
  | JStr s => s
  | JArr elems =>
      String.concat ","
        ((fix each (l : list JsValue) : list string :=
            match l with
            | [] => []
            | JUndefined :: l' => "" :: each l'
            | JNull :: l' => "" :: each l'
            | x :: l' => toString x :: each l'
            end) elems)
  | JObj _ => "[object Object]"
  end.

Definition joinItem (v : JsValue) : string :=
  match v with
  | JUndefined | JNull => ""
  | _ => toString v
  end.

Definition join (sep : string) (l : list JsValue) : string :=
  String.concat sep (map joinItem l).

(** [Object.values(row)]. *)
Definition objectValues (row : JsValue) : Outcome (list JsValue) :=
  match row with
  | JObj fields => Returned (map snd fields)
  | JArr elems => Returned elems
  | JStr s => Returned (map (fun c => JStr (String c EmptyString)) (list_ascii_of_string s))
  | JBool _ | JNum _ => Returned []
  | JUndefined | JNull =>
      Thrown (mkError "Cannot convert undefined or null to object")
  end.

End Js.
Import Js.

(** ** utils/export.js *)

Module ExportJs.

Local Open Scope string_scope.

(** What [downloadBlob(blob, filename)] hands to the browser. *)
Record Download : Type := mkDownload {
  filename : string;
  mime : string;
  content : string
}.

Definition newline : string := String (ascii_of_nat 10) EmptyString.

(** [data.map(row => Object.values(row).join(","))]: only an array has
    a [map] method; the callback may throw on a [null] row. *)
Fixpoint mapRows (rows : list JsValue) : Outcome (list string) :=
  match rows with
  | [] => Returned []
  | row :: rest =>
      match objectValues row with
      | Thrown e => Thrown e
      | Returned vs =>
          match mapRows rest with
          | Thrown e => Thrown e
          | Returned ls => Returned (join "," vs :: ls)
          end
      end
  end.

Definition exportAsCSV (data : JsValue) : Outcome Download :=
  match data with
  | JArr rows =>
      match mapRows rows with
      | Thrown e => Thrown e
      | Returned ls =>
          let csv := String.concat newline ls in
          Returned (mkDownload "results.csv" "text/csv" csv)
      end
  | JUndefined =>
      Thrown (mkError "Cannot read properties of undefined (reading 'map')")
  | JNull =>
      Thrown (mkError "Cannot read properties of null (reading 'map')")
  | _ => Thrown (mkError "data.map is not a function")
  end.

End ExportJs.

(** ** The data model: alerts and result documents *)

(** [Alert.jsx]: [{ message, type }] with the four kinds of
    [Alert.propTypes]. *)
Module Alert.
Inductive Kind : Type := success | warning | info | error.
Record t : Type := mk { message : string; type : Kind }.
End Alert.

Module Point.
Record t : Type := mk { x : Z; y : Z }.
End Point.

Module Position.
Record t : Type := mk {
  frame : Z; x : Z; y : Z; width : Z; height : Z; timestamp : string
}.
End Position.

Module Movement.
Record t : Type := mk { frame : Z; count : Z }.
End Movement.

(** The result document.  [fps] and [videoDuration] are absent from the
    documents of the first version of the hook. *)
Record AnalysisResult : Type := mkResult {
  totalFrames : Z;
  batDetected : bool;
  detectionCount : Z;
  startPoint : Point.t;
  endPoint : Point.t;
  analysisTime : string;
  fps : option Q;
  videoDuration : option Q;
  positions : list Position.t;
  movementsPerFrame : list Movement.t
}.

(** The selected [File]; only its name is shown. *)
Record File : Type := mkFile { name : string }.

(** The objects handed to [export.js]. *)
Module ToJs.
Local Open Scope string_scope.

Definition point (p : Point.t) : JsValue :=
  JObj [("x", JNum (Point.x p)); ("y", JNum (Point.y p))].

Definition positionFields (p : Position.t) : list (string * JsValue) :=
  [("frame", JNum (Position.frame p));
   ("x", JNum (Position.x p));
   ("y", JNum (Position.y p));
   ("width", JNum (Position.width p));
   ("height", JNum (Position.height p));
   ("timestamp", JStr (Position.timestamp p))].

Definition position (p : Position.t) : JsValue := JObj (positionFields p).

Definition movement (m : Movement.t) : JsValue :=
  JObj [("frame", JNum (Movement.frame m));
        ("count", JNum (Movement.count m))].

(** The whole document, as [ResultsSection] passes it to the export
    buttons.  The two rational fields are not printed by any code
    modelled here and are left out. *)
Definition result (r : AnalysisResult) : JsValue :=
  JObj [("totalFrames", JNum (totalFrames r));
        ("batDetected", JBool (batDetected r));
        ("detectionCount", JNum (detectionCount r));
        ("startPoint", point (startPoint r));
        ("endPoint", point (endPoint r));
        ("analysisTime", JStr (analysisTime r));
        ("positions", JArr (map position (positions r)));
        ("movementsPerFrame", JArr (map movement (movementsPerFrame r)))].
End ToJs.

(** ** The synthesized (demo) result documents *)

Module Dummy.
Local Open Scope string_scope.

(** [Math.floor(Math.random() * n)], for the draw [r] of
    [Math.random()]. *)
Definition floorRandom (r : Q) (n : Z) : Z := Qfloor (r * inject_Z n).

(** [`00:00:${String(i + 1).padStart(2, '0')}`]. *)
Definition timestampOf (i : nat) : string :=
  "00:00:" ++ padStart2 (showZ (Z.of_nat i + 1)).

(** [Array.from({ length: n }, (_, i) => f(i))]. *)
Definition arrayFrom {A : Type} (n : Z) (f : nat -> A) : list A :=
  map f (seq 0 (Z.to_nat n)).

(** The document built by the current hook.  [rnd k] is the value of
    the [k]-th call of [Math.random()] during the construction, in
    evaluation order: eight draws for the scalar fields, one for the
    number of positions, four per position, one for the number of
    movement entries and one per entry. *)
Definition dummyResult (rnd : nat -> Q) : AnalysisResult :=
  let npos := (floorRandom (rnd 8%nat) 50 + 10)%Z in
  let base := (9 + 4 * Z.to_nat npos)%nat in
  {| totalFrames := (floorRandom (rnd 0%nat) 500 + 100)%Z;
     batDetected := negb (Qle_bool (rnd 1%nat) 0.3);
     detectionCount := (floorRandom (rnd 2%nat) 50 + 10)%Z;
     startPoint := Point.mk (floorRandom (rnd 3%nat) 50 + 10)
                            (floorRandom (rnd 4%nat) 50 + 20);
     endPoint := Point.mk (floorRandom (rnd 5%nat) 50 + 60)
                          (floorRandom (rnd 6%nat) 50 + 70);
     analysisTime := "00:01:23";
     fps := Some 30.0%Q;
     videoDuration :=
       Some (inject_Z (floorRandom (rnd 7%nat) 500 + 100) / 30.0)%Q;
     positions :=
       arrayFrom npos (fun i =>
         Position.mk (Z.of_nat i + 1)
                     (floorRandom (rnd (9 + 4 * i)%nat) 100)
                     (floorRandom (rnd (10 + 4 * i)%nat) 100)
                     (floorRandom (rnd (11 + 4 * i)%nat) 20 + 10)
                     (floorRandom (rnd (12 + 4 * i)%nat) 30 + 15)
                     (timestampOf i));
     movementsPerFrame :=
       arrayFrom (floorRandom (rnd base) 100 + 50)
         (fun i => Movement.mk (Z.of_nat i + 1)
                               (floorRandom (rnd (base + 1 + i)%nat) 5)) |}.

(** The document built by the first version of the hook: fixed scalar
    fields, a hundred entries in each series, two draws per position
    and then one per movement entry. *)
Definition dummyResultV1 (rnd : nat -> Q) : AnalysisResult :=
  {| totalFrames := 100;
     batDetected := true;
     detectionCount := 42;
     startPoint := Point.mk 10 20;
     endPoint := Point.mk 80 90;
     analysisTime := "00:01:23";
     fps := None;
     videoDuration := None;
     positions :=
       arrayFrom 100 (fun i =>
         Position.mk (Z.of_nat i + 1)
                     (floorRandom (rnd (2 * i)%nat) 100)
                     (floorRandom (rnd (2 * i + 1)%nat) 100)
                     15 30 (timestampOf i));
     movementsPerFrame :=
       arrayFrom 100 (fun i =>
         Movement.mk (Z.of_nat i + 1)
                     (floorRandom (rnd (200 + i)%nat) 10)) |}.

End Dummy.

(** ** utils/api-real.js *)

Module ApiReal.
Local Open Scope string_scope.

(** The arguments of [analyzeVideo]; [None] is a missing ([undefined])
    argument, or [null] for the file and the end time. *)
Record Args : Type := mkArgs {
  videoFile : option File;
  startTime : option Q;
  endTime : option Q;
  uploadSensitivity : option Q
}.

(** The form posted to [`${API_BASE_URL}/analyze`], with the default
    parameter values [startTime = 0] and [uploadSensitivity = 1.0]
    filled in. *)
Record FormData : Type := mkForm {
  file : File;
  start_time : Q;
  end_time : option Q;
  upload_sensitivity : Q
}.

(** The JSON body of the answer: [{ success, message, data }]. *)
Record Body : Type := mkBody {
  success : bool;
  message : option string;
  data : option AnalysisResult
}.

(** What the network does with the request: [fetch] rejects,
    [response.json()] rejects, or a body arrives with [response.ok]. *)
Inductive FetchOutcome : Type :=
| NetworkError (e : JsError)
| BadJson (e : JsError)
| Response (ok : bool) (body : Body).

(** The input validation at the head of [analyzeVideo]: the error
    thrown, or the form to post. *)
Definition validate (a : Args) : JsError + FormData :=
  match videoFile a with
  | None => inl (mkError "Video file is required")
  | Some f =>
      let start := match startTime a with Some s => s | None => 0%Q end in
      if negb (Qle_bool 0 start)
      then inl (mkError "Start time must be non-negative")
      else
        match endTime a with
        | Some e =>
            if Qle_bool e start
            then inl (mkError "End time must be greater than start time")
            else inr (mkForm f start (Some e)
                        (match uploadSensitivity a with
                         | Some s => s | None => 1.0%Q end))
        | None =>
            inr (mkForm f start None
                   (match uploadSensitivity a with
                    | Some s => s | None => 1.0%Q end))
        end
  end.

(** [result.message || fallback]. *)
Definition messageOr (m : option string) (fallback : string) : string :=
  match m with
  | Some s => if String.eqb s "" then fallback else s
  | None => fallback
  end.

(** The part of [analyzeVideo] after [fetch]: every failure is
    rethrown unchanged by the function's own [catch]. *)
Definition settle (o : FetchOutcome) : Outcome (option AnalysisResult) :=
  match o with
  | NetworkError e => Thrown e
  | BadJson e => Thrown e
  | Response ok body =>
      if negb ok
      then Thrown (mkError (messageOr (message body) "Analysis failed"))
      else if negb (success body)
      then Thrown (mkError (messageOr (message body)
                              "Analysis was not successful"))
      else Returned (data body)
  end.

End ApiReal.

(** ** The hook [useVideoAnalysis] *)

Module Hook.

(** What the hook does to the outside world. *)
Inductive Effect : Type :=
| Fetch (form : ApiReal.FormData)       (* the POST of [api-real.js] *)
| SetTimeout (ms : Z)                   (* [setTimeout(resolve, ms)] *)
| AlertCall (a : Alert.t).              (* [setAlert(a)] *)

(** A suspended call of [analyzeVideo]: awaiting the promise of
    [analyzeVideoAPI] (already rejected by the validation when [early]
    is an error), or awaiting the 1500 ms timer.  A promise that is
    already rejected resumes the call before any other event; the model
    lets other events come first as well, which only adds behaviours. *)
Inductive Phase : Type :=
| AwaitApi (early : option JsError)
| AwaitDelay.

(** A piece of [analyzeVideo] either reaches the next [await] or
    leaves the function with its return value ([None]: [undefined]). *)
Inductive Ctl : Type :=
| Suspended (p : Phase)
| Finished (v : option AnalysisResult).

Section WithCaller.

(** The caller's state and the [setAlert] function it passes to
    [useVideoAnalysis(setAlert)]; like any function called from
    JavaScript it may throw. *)
Variable C : Type.
Variable setAlert : Alert.t -> C -> C * Outcome unit.

(** The two [useState] cells of the hook, the caller's state and the
    trace of effects. *)
Record World : Type := mkWorld {
  loading : bool;
  results : option AnalysisResult;
  caller : C;
  trace : list Effect
}.

Definition M (A : Type) : Type := World -> World * Outcome A.

Definition ret {A : Type} (a : A) : M A := fun w => (w, Returned a).

Definition bind {A B : Type} (m : M A) (f : A -> M B) : M B :=
  fun w =>
    match m w with
    | (w', Returned a) => f a w'
    | (w', Thrown e) => (w', Thrown e)
    end.

Definition throw {A : Type} (e : JsError) : M A :=
  fun w => (w, Thrown e).

(** [try { m } catch (e) { h e }]. *)
Definition tryCatch {A : Type} (m : M A) (h : JsError -> M A) : M A :=
  fun w =>
    match m w with
    | (w', Returned a) => (w', Returned a)
    | (w', Thrown e) => h e w'
    end.

Definition emit (eff : Effect) : M unit :=
  fun w => (mkWorld (loading w) (results w) (caller w)
                    (trace w ++ [eff]), Returned tt).

Definition setLoading (b : bool) : M unit :=
  fun w => (mkWorld b (results w) (caller w) (trace w), Returned tt).

Definition setResults (r : option AnalysisResult) : M unit :=
  fun w => (mkWorld (loading w) r (caller w) (trace w), Returned tt).

Definition callSetAlert (a : Alert.t) : M unit :=
  fun w =>
    let (c', o) := setAlert a (caller w) in
    (mkWorld (loading w) (results w) c' (trace w ++ [AlertCall a]), o).

End WithCaller.

Arguments ret {C A} a.
Arguments throw {C A} e.
Arguments emit {C} eff.
Arguments setLoading {C} b.
Arguments setResults {C} r.

Declare Scope js_scope.
Delimit Scope js_scope with js.
Notation "x <- m ;; k" := (bind m (fun x => k))
  (at level 61, m at next level, right associativity) : js_scope.
Notation "m ;; k" := (bind m (fun _ => k))
  (at level 61, right associativity) : js_scope.

End Hook.

Module UseVideoAnalysis.
Import Hook.
Local Open Scope string_scope.
Local Open Scope js_scope.

Section WithCaller.

Variable C : Type.
Variable setAlert : Alert.t -> C -> C * Outcome unit.

(** [process.env.REACT_APP_USE_REAL_API]; [None] when it is unset. *)
Variable REACT_APP_USE_REAL_API : option string.

Definition useRealAPI : bool :=
  match REACT_APP_USE_REAL_API with
  | Some s => String.eqb s "true"
  | None => false
  end.

(** The outer [try { ... } catch (error) { setAlert(...); throw error }
    finally { setLoading(false) }] around a piece of the body.  A
    piece that stops at an [await] stays inside the [try]; the
    handler and the [finally] block run when the function is left. *)
Definition guarded (m : M C Ctl) : M C Ctl :=
  fun w =>
    match
      tryCatch m
        (fun error =>
           callSetAlert setAlert
             (Alert.mk ("Fehler: " ++ Js.message error) Alert.error) ;;
           throw error) w
    with
    | (w', Returned (Suspended p)) => (w', Returned (Suspended p))
    | (w', o) => (fst (setLoading false w'), o)
    end.

(** [await new Promise(resolve => setTimeout(resolve, 1500))]. *)
Definition startDelay : M C Ctl :=
  emit (SetTimeout 1500) ;; ret (Suspended AwaitDelay).

(** The call [analyzeVideoAPI(videoFile, startTime, endTime,
    uploadSensitivity)] up to its own first [await]: the validation
    runs at once, the request is posted only if it passes. *)
Definition callApi (a : ApiReal.Args) : M C Ctl :=
  match ApiReal.validate a with
  | inl e => ret (Suspended (AwaitApi (Some e)))
  | inr form => emit (Fetch form) ;; ret (Suspended (AwaitApi None))
  end.

(** [analyzeVideo], from the call to the first [await]. *)
Definition analyzeVideo (a : ApiReal.Args) : M C Ctl :=
  guarded
    (setLoading true ;;
     if useRealAPI then callApi a else startDelay).

(** [analyzeVideo], resumed when the promise of [analyzeVideoAPI]
    settles with [o]: the inner [try] stores and returns the result,
    the inner [catch] raises the warning and falls through to the
    demo data. *)
Definition afterApi (o : Outcome (option AnalysisResult)) : M C Ctl :=
  guarded
    (r <- tryCatch
            (apiResult <- (fun w => (w, o)) ;;
             setResults apiResult ;;
             callSetAlert setAlert
               (Alert.mk "Analyse erfolgreich mit Backend abgeschlossen"
                         Alert.success) ;;
             ret (Some apiResult))
            (fun apiError =>
               callSetAlert setAlert
                 (Alert.mk
                    ("Backend nicht verfügbar, verwende Demo-Daten: "
                       ++ Js.message apiError)
                    Alert.warning) ;;
               ret None) ;;
     match r with
     | Some apiResult => ret (Finished apiResult)
     | None => startDelay
     end).

(** [analyzeVideo], resumed when the timer fires. *)
Definition afterDelay (rnd : nat -> Q) : M C Ctl :=
  guarded
    (let dummyResult := Dummy.dummyResult rnd in
     setResults (Some dummyResult) ;;
     callSetAlert setAlert
       (Alert.mk "Demo-Analyse erfolgreich abgeschlossen" Alert.success) ;;
     ret (Finished (Some dummyResult))).

(** *** The first version of the hook: always the demo data, and a
    [catch] that does not rethrow. *)

Definition guardedV1 (m : M C Ctl) : M C Ctl :=
  fun w =>
    match
      tryCatch m
        (fun error =>
           callSetAlert setAlert
             (Alert.mk ("Fehler: " ++ Js.message error) Alert.error) ;;
           ret (Finished None)) w
    with
    | (w', Returned (Suspended p)) => (w', Returned (Suspended p))
    | (w', o) => (fst (setLoading false w'), o)
    end.

Definition analyzeVideoV1 (a : ApiReal.Args) : M C Ctl :=
  guardedV1 (setLoading true ;; startDelay).

Definition afterDelayV1 (rnd : nat -> Q) : M C Ctl :=
  guardedV1
    (let dummyResult := Dummy.dummyResultV1 rnd in
     setResults (Some dummyResult) ;;
     callSetAlert setAlert
       (Alert.mk "Analyse erfolgreich abgeschlossen" Alert.success) ;;
     ret (Finished (Some dummyResult))).

(** *** Calls in flight

    The hook keeps no record of its calls; the pending continuations
    live in the JavaScript run time.  [tasks] lists them, each under
    the number of the call that created it, so that an event of the
    environment can name the promise it settles. *)

Record Sys : Type := mkSys {
  world : World C;
  tasks : list (nat * Phase);
  calls : nat                       (* calls of [analyzeVideo] so far *)
}.

Inductive Event : Type :=
| Call (a : ApiReal.Args)
| ApiSettled (id : nat) (o : ApiReal.FetchOutcome)
| DelayElapsed (id : nat) (rnd : nat -> Q).

(** What the promise returned by [analyzeVideo] settles with, when a
    step ends a call. *)
Definition Completion : Type := option (Outcome (option AnalysisResult)).

Fixpoint take (id : nat) (ts : list (nat * Phase))
  : option (Phase * list (nat * Phase)) :=
  match ts with
  | [] => None
  | (i, p) :: rest =>
      if Nat.eqb i id then Some (p, rest)
      else match take id rest with
           | Some (q, rest') => Some (q, (i, p) :: rest')
           | None => None
           end
  end.

Definition conclude (id : nat) (rest : list (nat * Phase)) (n : nat)
           (r : World C * Outcome Ctl) : Sys * Completion :=
  match r with
  | (w, Returned (Suspended p)) => (mkSys w (rest ++ [(id, p)]) n, None)
  | (w, Returned (Finished v)) => (mkSys w rest n, Some (Returned v))
  | (w, Thrown e) => (mkSys w rest n, Some (Thrown e))
  end.

Definition step (s : Sys) (ev : Event) : Sys * Completion :=
  match ev with
  | Call a =>
      conclude (S (calls s)) (tasks s) (S (calls s))
               (analyzeVideo a (world s))
  | ApiSettled id o =>
      match take id (tasks s) with
      | Some (AwaitApi early, rest) =>
          conclude id rest (calls s)
            (afterApi (match early with
                       | Some e => Thrown e
                       | None => ApiReal.settle o
                       end) (world s))
      | _ => (s, None)
      end
  | DelayElapsed id rnd =>
      match take id (tasks s) with
      | Some (AwaitDelay, rest) =>
          conclude id rest (calls s) (afterDelay rnd (world s))
      | _ => (s, None)
      end
  end.

Definition run (s : Sys) (evs : list Event) : Sys :=
  fold_left (fun s ev => fst (step s ev)) evs s.

End WithCaller.

End UseVideoAnalysis.

(** ** components/UploadSection.jsx *)

Module UploadSection.
Import Hook.
Local Open Scope string_scope.

(** The [useState] cells of the component that the handlers below read
    or write, and the two cells of [AppPage] they reach through the
    props [setResults] and [switchToResults].  ([videoUrl] and
    [currentTime] play no part in them.) *)
Record State : Type := mkState {
  videoFile : option File;
  startTime : Q;
  endTime : Q;
  duration : Q;
  alert : option Alert.t;
  pageResults : option AnalysisResult;     (* [results] of [AppPage] *)
  activeSection : string                   (* [activeSection] of [AppPage] *)
}.

(** [useState(null)], [useState(0)], ... and, in [AppPage],
    [useState('home')], [useState(null)]. *)
Definition initial : State :=
  mkState None 0 0 0 None None "home".

Definition setStartTime (v : Q) (st : State) : State :=
  mkState (videoFile st) v (endTime st) (duration st) (alert st)
          (pageResults st) (activeSection st).

Definition setEndTime (v : Q) (st : State) : State :=
  mkState (videoFile st) (startTime st) v (duration st) (alert st)
          (pageResults st) (activeSection st).

Definition setDuration (v : Q) (st : State) : State :=
  mkState (videoFile st) (startTime st) (endTime st) v (alert st)
          (pageResults st) (activeSection st).

Definition setVideoFile (f : option File) (st : State) : State :=
  mkState f (startTime st) (endTime st) (duration st) (alert st)
          (pageResults st) (activeSection st).

Definition putAlert (a : option Alert.t) (st : State) : State :=
  mkState (videoFile st) (startTime st) (endTime st) (duration st) a
          (pageResults st) (activeSection st).

Definition setPageResults (r : option AnalysisResult) (st : State) : State :=
  mkState (videoFile st) (startTime st) (endTime st) (duration st)
          (alert st) r (activeSection st).

Definition setActiveSection (sec : string) (st : State) : State :=
  mkState (videoFile st) (startTime st) (endTime st) (duration st)
          (alert st) (pageResults st) sec.

(** The state setter [setAlert] of the component, as the hook receives
    it: it stores the alert and never throws. *)
Definition setAlert (a : Alert.t) (st : State) : State * Outcome unit :=
  (putAlert (Some a) st, Returned tt).

(** [handleFileSelect], for [e.target.files[0]]. *)
Definition handleFileSelect (file : option File) (st : State) : State :=
  match file with
  | None => st
  | Some f =>
      putAlert None (setEndTime 0 (setStartTime 0 (setVideoFile (Some f) st)))
  end.

(** [onLoadedMetadata], for [videoRef.current.duration]. *)
Definition onLoadedMetadata (dur : Q) (st : State) : State :=
  setEndTime dur (setDuration dur st).

(** The value a range input with the attributes [min] and [max] holds
    when the user asks for [t]: the browser keeps it inside
    [[min, max]].  (The snapping to [step="0.1"] is left out.) *)
Definition rangeValue (min max t : Q) : Q :=
  if Qle_bool t min then min
  else if Qle_bool max t then max
  else t.

(** The two [onChange] handlers of the segment controls:
    [setStartTime(parseFloat(e.target.value))] and
    [setEndTime(parseFloat(e.target.value))], the inputs being
    declared with [min="0" max={duration}]. *)
Definition onStartChange (t : Q) (st : State) : State :=
  setStartTime (rangeValue 0 (duration st) t) st.

Definition onEndChange (t : Q) (st : State) : State :=
  setEndTime (rangeValue 0 (duration st) t) st.

Section WithEnv.

Variable REACT_APP_USE_REAL_API : option string.

Definition Sys : Type := UseVideoAnalysis.Sys State.

Definition hookStep : Sys -> UseVideoAnalysis.Event ->
                      Sys * UseVideoAnalysis.Completion :=
  UseVideoAnalysis.step setAlert REACT_APP_USE_REAL_API.

(** Apply a handler of the component to the component's state. *)
Definition onState (f : State -> State) (s : Sys) : Sys :=
  let w := UseVideoAnalysis.world s in
  UseVideoAnalysis.mkSys
    (mkWorld (loading w) (results w) (f (caller w)) (trace w))
    (UseVideoAnalysis.tasks s) (UseVideoAnalysis.calls s).

Definition stateOf (s : Sys) : State :=
  caller (UseVideoAnalysis.world s).

(** [handleAnalyze] after [await analyzeVideo(...)]. *)
Definition handleAnalyzeResume (o : Outcome (option AnalysisResult))
           (s : Sys) : Sys :=
  match o with
  | Returned (Some analyzeResults) =>
      onState (fun st => setActiveSection "results"
                           (setPageResults (Some analyzeResults) st)) s
  | Returned None => s
  | Thrown _ =>
      onState (putAlert (Some (Alert.mk "Analyse fehlgeschlagen."
                                        Alert.error))) s
  end.

Definition resume (r : Sys * UseVideoAnalysis.Completion) : Sys :=
  match r with
  | (s, Some o) => handleAnalyzeResume o s
  | (s, None) => s
  end.

(** [handleAnalyze], from the click to its [await]. *)
Definition handleAnalyze (s : Sys) : Sys :=
  let st := stateOf s in
  match videoFile st with
  | None =>
      onState (putAlert (Some (Alert.mk
        "Bitte wählen Sie zuerst eine Videodatei aus." Alert.warning))) s
  | Some f =>
      if Qle_bool (endTime st) (startTime st)
      then
        onState (putAlert (Some (Alert.mk
          "Startzeit muss kleiner als Endzeit sein." Alert.warning))) s
      else
        resume (hookStep s
                  (UseVideoAnalysis.Call
                     (ApiReal.mkArgs (Some f) (Some (startTime st))
                                     (Some (endTime st)) None)))
  end.

(** [disabled={!videoFile || loading}] on the analyze button. *)
Definition analyzeDisabled (s : Sys) : bool :=
  match videoFile (stateOf s) with
  | None => true
  | Some _ => loading (UseVideoAnalysis.world s)
  end.

(** The events the mounted component can receive.  The segment
    controls are rendered only while [duration > 0]; a disabled
    button delivers no click. *)
Inductive Event : Type :=
| FileSelected (file : option File)
| LoadedMetadata (dur : Q)
| StartSlider (t : Q)
| EndSlider (t : Q)
| AnalyzeClicked
| ApiSettled (id : nat) (o : ApiReal.FetchOutcome)
| DelayElapsed (id : nat) (rnd : nat -> Q).

Definition controlsShown (s : Sys) : bool :=
  negb (Qle_bool (duration (stateOf s)) 0).

Definition step (s : Sys) (ev : Event) : Sys :=
  match ev with
  | FileSelected file => onState (handleFileSelect file) s
  | LoadedMetadata dur => onState (onLoadedMetadata dur) s
  | StartSlider t =>
      if controlsShown s then onState (onStartChange t) s else s
  | EndSlider t =>
      if controlsShown s then onState (onEndChange t) s else s
  | AnalyzeClicked =>
      if analyzeDisabled s then s else handleAnalyze s
  | ApiSettled id o => resume (hookStep s (UseVideoAnalysis.ApiSettled id o))
  | DelayElapsed id rnd =>
      resume (hookStep s (UseVideoAnalysis.DelayElapsed id rnd))
  end.

Definition run (s : Sys) (evs : list Event) : Sys :=
  fold_left step evs s.

(** The freshly mounted component. *)
Definition mounted : Sys :=
  UseVideoAnalysis.mkSys (mkWorld false None initial []) [] 0.

End WithEnv.

End UploadSection.

(** ** components/Settings.jsx, mounted by components/MainContent.jsx
    with the props [sensitivity={defaultSensitivity}] and
    [setSensitivity={setDefaultSensitivity}] *)

Module Settings.

(** A pending [setTimeout(() => { setSensitivity(value); }, 300)]:
    its id, the time at which it is due and the [value] its callback
    has captured. *)
Record Timer : Type := mkTimer { id : nat; due : Z; value : Q }.

(** The cell [defaultSensitivity] of [MainContent] (the prop
    [sensitivity]), the cell [tempSensitivity], the ref
    [debounceTimeout] ([None] for [null]), and the browser's side:
    the pending timers in the order they were set, the last timer id
    handed out, the clock in milliseconds, and the log of the calls
    [setSensitivity(value)] with their times. *)
Record State : Type := mkState {
  sensitivity : Q;
  tempSensitivity : Q;
  debounceTimeout : option nat;
  timers : list Timer;
  lastId : nat;
  now : Z;
  commits : list (Z * Q)
}.

(** [useState(0.5)] in [MainContent], [useState(sensitivity)] and
    [useRef(null)] in [Settings]. *)
Definition initial : State :=
  mkState 0.5 0.5 None [] 0 0 [].

(** [clearTimeout(id)]: a no-op when no such timer is pending. *)
Definition clearTimeout (i : nat) (st : State) : State :=
  mkState (sensitivity st) (tempSensitivity st) (debounceTimeout st)
          (filter (fun t => negb (Nat.eqb (id t) i)) (timers st))
          (lastId st) (now st) (commits st).

(** [setTimeout(callback, delay)]: timer ids are positive and
    increasing. *)
Definition setTimeout (v : Q) (delay : Z) (st : State) : nat * State :=
  let i := S (lastId st) in
  (i, mkState (sensitivity st) (tempSensitivity st) (debounceTimeout st)
              (timers st ++ [mkTimer i (now st + delay) v])
              i (now st) (commits st)).

(** [handleChange], for [value = parseFloat(e.target.value)]. *)
Definition handleChange (v : Q) (st : State) : State :=
  let st1 := mkState (sensitivity st) v (debounceTimeout st)
                     (timers st) (lastId st) (now st) (commits st) in
  let st2 := match debounceTimeout st1 with
             | Some i => if Nat.eqb i 0 then st1 else clearTimeout i st1
             | None => st1
             end in
  let (i, st3) := setTimeout v 300 st2 in
  mkState (sensitivity st3) (tempSensitivity st3) (Some i)
          (timers st3) (lastId st3) (now st3) (commits st3).

(** The timer callback [setSensitivity(value)], run at time [at_]:
    [MainContent] stores the value, and when it differs from the old
    one the effect [setTempSensitivity(sensitivity)] follows. *)
Definition fire (at_ : Z) (v : Q) (st : State) : State :=
  mkState v
          (if Qeq_bool v (sensitivity st) then tempSensitivity st else v)
          (debounceTimeout st) (timers st) (lastId st) (now st)
          (commits st ++ [(at_, v)]).

(** [dt] milliseconds pass: every pending timer that has become due
    runs, in the order the timers were set (all delays being equal,
    this is the order of their due times), and is gone. *)
Definition elapse (dt : Z) (st : State) : State :=
  let t := (now st + dt)%Z in
  let ready := filter (fun tm => (due tm <=? t)%Z) (timers st) in
  let waiting := filter (fun tm => negb (due tm <=? t)%Z) (timers st) in
  let st1 := mkState (sensitivity st) (tempSensitivity st)
                     (debounceTimeout st) waiting (lastId st) t
                     (commits st) in
  fold_left (fun s tm => fire (due tm) (value tm) s) ready st1.

Inductive Event : Type :=
| Change (v : Q)          (* the slider's [onChange] *)
| Elapse (dt : Z).        (* time passes *)

Definition step (st : State) (ev : Event) : State :=
  match ev with
  | Change v => handleChange v st
  | Elapse dt => elapse dt st
  end.

Definition run (st : State) (evs : list Event) : State :=
  fold_left step evs st.

(** A burst of inputs: a first change, then further changes, each
    [gap] milliseconds after the one before. *)
Definition burst (v0 : Q) (more : list (Z * Q)) : list Event :=
  Change v0 :: flat_map (fun gv => [Elapse (fst gv); Change (snd gv)]) more.

Definition lastValue (v0 : Q) (more : list (Z * Q)) : Q :=
  last (map snd more) v0.

End Settings.

(** ** Reading a CSV text back

    Not part of the program: the vocabulary in which the statements
    about [exportAsCSV] speak of the rows and cells of its output. *)

Module CsvText.
Local Open Scope string_scope.

Definition comma : ascii := ascii_of_nat 44.
Definition lf : ascii := ascii_of_nat 10.

Fixpoint hasChar (c : ascii) (s : string) : bool :=
  match s with
  | EmptyString => false
  | String a s' => Ascii.eqb a c || hasChar c s'
  end.

(** [s.split(c)] for a one-character separator. *)
Fixpoint splitOn (c : ascii) (s : string) : list string :=
  match s with
  | EmptyString => [EmptyString]
  | String a s' =>
      if Ascii.eqb a c then EmptyString :: splitOn c s'
      else match splitOn c s' with
           | [] => [String a EmptyString]
           | h :: t => String a h :: t
           end
  end.

Definition lines (s : string) : list string := splitOn lf s.
Definition cells (s : string) : list string := splitOn comma s.

(** The row of printed values of an object. *)
Definition printed (fields : list (string * JsValue)) : list string :=
  map joinItem (map snd fields).



End CsvText.

(* ================================================================== *)
(** * Part II: the properties *)
(* ================================================================== *)

(** ** CSV export *)

Section CsvExport.
Import ExportJs CsvText.
Local Open Scope string_scope.

Lemma splitOn_clean (c : ascii) (s : string) :
  hasChar c s = false -> splitOn c s = [s].
Proof.
  induction s as [|a s IH]; simpl; [reflexivity|].
  intros H. apply orb_false_iff in H. destruct H as [Ha Hs].
  rewrite Ha, IH by assumption. reflexivity.
Qed.

Lemma splitOn_cons (c : ascii) (s rest : string) :
  hasChar c s = false ->
  splitOn c (s ++ String c rest) = s :: splitOn c rest.
Proof.
  induction s as [|a s IH]; simpl.
  - intros _. rewrite Ascii.eqb_refl. reflexivity.
  - intros H. apply orb_false_iff in H. destruct H as [Ha Hs].
    rewrite Ha, IH by assumption. reflexivity.
Qed.

Lemma splitOn_concat (c : ascii) (l : list string) :
  l <> [] ->
  Forall (fun s => hasChar c s = false) l ->
  splitOn c (String.concat (String c EmptyString) l) = l.
Proof.
  induction l as [|x l IH]; [congruence|].
  intros _ Hall. inversion Hall as [|? ? Hx Hl]; subst.
  destruct l as [|y l].
  - simpl. apply splitOn_clean; assumption.
  - change (String.concat (String c EmptyString) (x :: y :: l))
      with (x ++ String c (String.concat (String c EmptyString) (y :: l))).
    rewrite splitOn_cons by assumption.
    rewrite IH; [reflexivity|congruence|assumption].
Qed.

Lemma hasChar_app (c : ascii) (s t : string) :
  hasChar c (s ++ t) = hasChar c s || hasChar c t.
Proof.
  induction s as [|a s IH]; simpl; [reflexivity|].
  rewrite IH, orb_assoc. reflexivity.
Qed.

Lemma hasChar_concat (c : ascii) (sep : string) (l : list string) :
  hasChar c sep = false ->
  Forall (fun s => hasChar c s = false) l ->
  hasChar c (String.concat sep l) = false.
Proof.
  intros Hsep. induction l as [|x l IH]; intros Hall; [reflexivity|].
  inversion Hall as [|? ? Hx Hl]; subst.
  destruct l as [|y l]; [exact Hx|].
  change (String.concat sep (x :: y :: l))
    with (x ++ sep ++ String.concat sep (y :: l)).
  rewrite !hasChar_app, Hx, Hsep, IH by assumption. reflexivity.
Qed.



Definition samplePosition : Position.t :=
  Position.mk 1 5 6 15 30 "00:00:01".



(** A comma inside a value is copied as it is: the row
    [{label: "a,b", n: 7}] reads back as three cells. *)
Example exportAsCSV_embedded_comma :
  exportAsCSV (JArr [JObj [("label", JStr "a,b"); ("n", JNum 7)]])
  = Returned (mkDownload "results.csv" "text/csv" "a,b,7")
  /\ cells "a,b,7" = ["a"; "b"; "7"].
Proof. split; reflexivity. Qed.

(** [ResultsSection] calls [exportAsCSV(results)] with the whole
    document, which is an object and has no [map] method. *)
Lemma exportAsCSV_of_document_throws (r : AnalysisResult) :
  exportAsCSV (ToJs.result r) = Thrown (mkError "data.map is not a function").
Proof. reflexivity. Qed.

End CsvExport.

(** ** Segment selection and the validation of a dispatch *)

Section Segment.
Import Hook UploadSection.
Local Open Scope Q_scope.

Lemma rangeValue_bounds (max t : Q) :
  0 <= max -> 0 <= rangeValue 0 max t <= max.
Proof.
  intros Hmax. unfold rangeValue.
  destruct (Qle_bool t 0) eqn:Hlo.
  - split; [apply Qle_refl|exact Hmax].
  - destruct (Qle_bool max t) eqn:Hhi.
    + split; [exact Hmax|apply Qle_refl].
    + split; apply Qlt_le_weak, Qnot_le_lt; intros H;
        apply Qle_bool_iff in H; congruence.
Qed.

(** C7, as amended.  The two handlers store the value of a range input
    declared with [min=0] and [max=duration]: for a duration that is
    not negative the bound they set lies in [[0, duration]], and the
    other bound and the duration are left as they were.  (Nothing
    here keeps [start < end].) *)
Theorem segment_setters_stay_in_range :
  forall (st : State) (t : Q),
    0 <= duration st ->
    (0 <= startTime (onStartChange t st) <= duration st
     /\ endTime (onStartChange t st) = endTime st
     /\ duration (onStartChange t st) = duration st)
    /\ (0 <= endTime (onEndChange t st) <= duration st
        /\ startTime (onEndChange t st) = startTime st
        /\ duration (onEndChange t st) = duration st).
Proof.
  intros st t Hd. split; (split; [|split; reflexivity]);
    cbn; apply rangeValue_bounds; exact Hd.
Qed.

(** A video of 60 seconds has been selected and its metadata loaded. *)
Definition sixtySeconds : State :=
  onLoadedMetadata 60 (handleFileSelect (Some (mkFile "bat.mp4")) initial).

Lemma segment_setters_stay_in_range_witness :
  (0 <= startTime (onStartChange 70 sixtySeconds) <= duration sixtySeconds
   /\ endTime (onStartChange 70 sixtySeconds) = endTime sixtySeconds
   /\ duration (onStartChange 70 sixtySeconds) = duration sixtySeconds)
  /\ (0 <= endTime (onEndChange 70 sixtySeconds) <= duration sixtySeconds
      /\ startTime (onEndChange 70 sixtySeconds) = startTime sixtySeconds
      /\ duration (onEndChange 70 sixtySeconds) = duration sixtySeconds).
Proof.
  apply (@segment_setters_stay_in_range sixtySeconds 70).
  vm_compute. discriminate.
Defined.

(** C7, as the specification states it, fails: on the default segment
    [(0, 60)] of a 60-second video, asking for a start of 70 gives the
    start 60, which is not below the end. *)
Lemma segment_start_can_reach_end :
  startTime sixtySeconds = 0
  /\ endTime sixtySeconds = 60
  /\ startTime (onStartChange 70 sixtySeconds) = 60
  /\ endTime (onStartChange 70 sixtySeconds)
     <= startTime (onStartChange 70 sixtySeconds).
Proof.
  repeat split. vm_compute. discriminate.
Qed.

Variable REACT_APP_USE_REAL_API : option string.

(** C3.  With no file selected, or with a start that is not below the
    end, [handleAnalyze] only stores a warning alert: no request is
    posted and no timer set (the trace is unchanged), no call of
    [analyzeVideo] is pending afterwards, the hook's cells and every
    other cell of the component are as before. *)
Theorem handleAnalyze_refuses_invalid_input :
  forall s : Sys,
    videoFile (stateOf s) = None \/ endTime (stateOf s) <= startTime (stateOf s) ->
    exists msg : string,
      let warn := Alert.mk msg Alert.warning in
      let s' := handleAnalyze REACT_APP_USE_REAL_API s in
      s' = onState (putAlert (Some warn)) s
      /\ alert (stateOf s') = Some warn
      /\ trace (UseVideoAnalysis.world s') = trace (UseVideoAnalysis.world s)
      /\ UseVideoAnalysis.tasks s' = UseVideoAnalysis.tasks s
      /\ UseVideoAnalysis.calls s' = UseVideoAnalysis.calls s
      /\ loading (UseVideoAnalysis.world s') = loading (UseVideoAnalysis.world s)
      /\ results (UseVideoAnalysis.world s') = results (UseVideoAnalysis.world s)
      /\ videoFile (stateOf s') = videoFile (stateOf s)
      /\ startTime (stateOf s') = startTime (stateOf s)
      /\ endTime (stateOf s') = endTime (stateOf s)
      /\ duration (stateOf s') = duration (stateOf s)
      /\ pageResults (stateOf s') = pageResults (stateOf s)
      /\ activeSection (stateOf s') = activeSection (stateOf s).
Proof.
  intros s H. unfold handleAnalyze.
  destruct (videoFile (stateOf s)) as [f|] eqn:Hf.
  - destruct H as [H|H]; [discriminate|].
    apply Qle_bool_iff in H. rewrite H.
    eexists. cbn. repeat split; try reflexivity; exact Hf.
  - eexists. cbn. repeat split; try reflexivity; exact Hf.
Qed.

End Segment.

Lemma handleAnalyze_refuses_invalid_input_witness :
  exists msg : string,
    let s := UploadSection.onState (fun _ => UploadSection.onStartChange 70 sixtySeconds)
                                   (UploadSection.mounted) in
    let warn := Alert.mk msg Alert.warning in
    let s' := UploadSection.handleAnalyze (Some "true"%string) s in
    s' = UploadSection.onState (UploadSection.putAlert (Some warn)) s
    /\ UploadSection.alert (UploadSection.stateOf s') = Some warn
    /\ Hook.trace (UseVideoAnalysis.world s') = Hook.trace (UseVideoAnalysis.world s)
    /\ UseVideoAnalysis.tasks s' = UseVideoAnalysis.tasks s
    /\ UseVideoAnalysis.calls s' = UseVideoAnalysis.calls s
    /\ Hook.loading (UseVideoAnalysis.world s') = Hook.loading (UseVideoAnalysis.world s)
    /\ Hook.results (UseVideoAnalysis.world s') = Hook.results (UseVideoAnalysis.world s)
    /\ UploadSection.videoFile (UploadSection.stateOf s')
       = UploadSection.videoFile (UploadSection.stateOf s)
    /\ UploadSection.startTime (UploadSection.stateOf s')
       = UploadSection.startTime (UploadSection.stateOf s)
    /\ UploadSection.endTime (UploadSection.stateOf s')
       = UploadSection.endTime (UploadSection.stateOf s)
    /\ UploadSection.duration (UploadSection.stateOf s')
       = UploadSection.duration (UploadSection.stateOf s)
    /\ UploadSection.pageResults (UploadSection.stateOf s')
       = UploadSection.pageResults (UploadSection.stateOf s)
    /\ UploadSection.activeSection (UploadSection.stateOf s')
       = UploadSection.activeSection (UploadSection.stateOf s).
Proof.
  apply (@handleAnalyze_refuses_invalid_input (Some "true"%string)
           (UploadSection.onState (fun _ => UploadSection.onStartChange 70 sixtySeconds)
                                  UploadSection.mounted)).
  right. vm_compute. discriminate.
Defined.

(** ** One analysis in flight *)

Section Dispatch.
Import Hook UploadSection.

Variable REACT_APP_USE_REAL_API : option string.

(** No call of [analyzeVideo] is pending and the flag is down. *)
Definition Idle (s : Sys) : Prop :=
  UseVideoAnalysis.tasks s = []
  /\ loading (UseVideoAnalysis.world s) = false.

(** Exactly one call is pending and the flag is up. *)
Definition Dispatching (s : Sys) : Prop :=
  (exists id p, UseVideoAnalysis.tasks s = [(id, p)])
  /\ loading (UseVideoAnalysis.world s) = true.

Lemma resume_keeps_hook (r : Sys * UseVideoAnalysis.Completion) :
  UseVideoAnalysis.tasks (resume r) = UseVideoAnalysis.tasks (fst r)
  /\ loading (UseVideoAnalysis.world (resume r))
     = loading (UseVideoAnalysis.world (fst r)).
Proof.
  destruct r as [s [[[v|]|e]|]]; split; reflexivity.
Qed.

Lemma call_dispatches (s : Sys) (a : ApiReal.Args) :
  UseVideoAnalysis.tasks s = [] ->
  Dispatching (resume (hookStep REACT_APP_USE_REAL_API s (UseVideoAnalysis.Call a))).
Proof.
  intros Ht.
  unfold hookStep, UseVideoAnalysis.step, UseVideoAnalysis.analyzeVideo.
  rewrite Ht.
  destruct (UseVideoAnalysis.useRealAPI REACT_APP_USE_REAL_API).
  - unfold UseVideoAnalysis.callApi.
    destruct (ApiReal.validate a) as [e|form]; cbn;
      (split; [eexists; eexists; reflexivity|reflexivity]).
  - cbn. split; [eexists; eexists; reflexivity|reflexivity].
Qed.

Lemma settled_keeps_invariant (s : Sys) (ev : UseVideoAnalysis.Event) :
  Dispatching s ->
  (forall a, ev <> UseVideoAnalysis.Call a) ->
  let s' := resume (hookStep REACT_APP_USE_REAL_API s ev) in
  Idle s' \/ Dispatching s'.
Proof.
  intros [[id [p Ht]] Hl] Hev s'. subst s'.
  unfold Idle, Dispatching.
  destruct (resume_keeps_hook (hookStep REACT_APP_USE_REAL_API s ev)) as [-> ->].
  destruct ev as [a|i o|i rnd]; [exfalso; exact (Hev a eq_refl)| |];
    unfold hookStep, UseVideoAnalysis.step; rewrite Ht; cbn [UseVideoAnalysis.take];
    destruct (Nat.eqb id i); cbn.
  - destruct p as [early|]; cbn.
    + destruct (match early with
                | Some e => Thrown e
                | None => ApiReal.settle o
                end) as [v|e]; cbn.
      * left. split; reflexivity.
      * right. split; [eexists; eexists; reflexivity|exact Hl].
    + right. split; [eexists; eexists; exact Ht|exact Hl].
  - right. split; [eexists; eexists; exact Ht|exact Hl].
  - destruct p as [early|]; cbn.
    + right. split; [eexists; eexists; exact Ht|exact Hl].
    + left. split; reflexivity.
  - right. split; [eexists; eexists; exact Ht|exact Hl].
Qed.

Lemma idle_ignores_settlement (s : Sys) (ev : UseVideoAnalysis.Event) :
  UseVideoAnalysis.tasks s = [] ->
  (forall a, ev <> UseVideoAnalysis.Call a) ->
  hookStep REACT_APP_USE_REAL_API s ev = (s, None).
Proof.
  intros Ht Hev.
  destruct ev as [a|i o|i rnd]; [exfalso; exact (Hev a eq_refl)| |];
    unfold hookStep, UseVideoAnalysis.step; rewrite Ht; reflexivity.
Qed.

Lemma step_keeps_invariant (s : Sys) (ev : Event) :
  Idle s \/ Dispatching s ->
  Idle (step REACT_APP_USE_REAL_API s ev)
  \/ Dispatching (step REACT_APP_USE_REAL_API s ev).
Proof.
  intros Inv.
  destruct ev as [file|dur|t|t| |i o|i rnd]; cbn [step].
  - exact Inv.
  - exact Inv.
  - destruct (controlsShown s); exact Inv.
  - destruct (controlsShown s); exact Inv.
  - unfold analyzeDisabled, handleAnalyze.
    destruct (videoFile (stateOf s)) as [f|]; [|exact Inv].
    destruct (loading (UseVideoAnalysis.world s)) eqn:Hl; [exact Inv|].
    destruct (Qle_bool (endTime (stateOf s)) (startTime (stateOf s)));
      [exact Inv|].
    right. apply call_dispatches.
    destruct Inv as [[Ht _]|[_ Hl']]; [exact Ht|congruence].
  - destruct Inv as [[Ht Hl]|D].
    + rewrite idle_ignores_settlement by (assumption || discriminate).
      left. split; assumption.
    + apply settled_keeps_invariant; [exact D|discriminate].
  - destruct Inv as [[Ht Hl]|D].
    + rewrite idle_ignores_settlement by (assumption || discriminate).
      left. split; assumption.
    + apply settled_keeps_invariant; [exact D|discriminate].
Qed.

Lemma run_keeps_invariant (evs : list Event) (s : Sys) :
  Idle s \/ Dispatching s ->
  Idle (run REACT_APP_USE_REAL_API s evs)
  \/ Dispatching (run REACT_APP_USE_REAL_API s evs).
Proof.
  revert s. induction evs as [|ev evs IH]; intros s Inv; [exact Inv|].
  cbn [run fold_left]. apply IH, step_keeps_invariant, Inv.
Qed.

(** While the flag is up the analyze button is disabled and a click
    reaches no handler. *)
Lemma click_while_loading (s : Sys) :
  loading (UseVideoAnalysis.world s) = true ->
  step REACT_APP_USE_REAL_API s AnalyzeClicked = s.
Proof.
  intros Hl. cbn [step]. unfold analyzeDisabled. rewrite Hl.
  destruct (videoFile (stateOf s)); reflexivity.
Qed.

(** C1.  In every state the mounted component can reach, at most one
    call of [analyzeVideo] is pending, one is pending exactly when the
    loading flag is up, and while one is pending a click on the
    analyze button changes nothing: no cell, no pending call, and no
    entry is added to the trace, so no second request is posted. *)
Theorem dispatch_while_in_flight_is_ignored :
  forall evs : list Event,
    let s := run REACT_APP_USE_REAL_API (mounted) evs in
    (List.length (UseVideoAnalysis.tasks s) <= 1)%nat
    /\ (UseVideoAnalysis.tasks s <> [] <->
        loading (UseVideoAnalysis.world s) = true)
    /\ (UseVideoAnalysis.tasks s <> [] ->
        step REACT_APP_USE_REAL_API s AnalyzeClicked = s).
Proof.
  intros evs s.
  assert (Inv : Idle s \/ Dispatching s).
  { apply run_keeps_invariant. left. split; reflexivity. }
  destruct Inv as [[Ht Hl]|[[id [p Ht]] Hl]]; rewrite Ht.
  - split; [cbn; lia|]. split; [|congruence].
    split; [congruence|]. rewrite Hl. discriminate.
  - split; [cbn; lia|]. split.
    + split; [intros _; exact Hl|discriminate].
    + intros _. apply click_while_loading, Hl.
Qed.

End Dispatch.

(** The gate is the button: [handleAnalyze] itself does not look at the
    flag.  Called a second time while the first request is pending, it
    posts a second request. *)
Lemma dispatch_while_in_flight_is_ignored_witness :
  let s := UploadSection.run (Some "true"%string) UploadSection.mounted
             [UploadSection.FileSelected (Some (mkFile "bat.mp4"));
              UploadSection.LoadedMetadata 60;
              UploadSection.AnalyzeClicked] in
  UseVideoAnalysis.tasks s = [(1%nat, Hook.AwaitApi None)]
  /\ UploadSection.step (Some "true"%string) s UploadSection.AnalyzeClicked = s.
Proof.
  split; [reflexivity|].
  apply (@dispatch_while_in_flight_is_ignored (Some "true"%string)
           [UploadSection.FileSelected (Some (mkFile "bat.mp4"));
            UploadSection.LoadedMetadata 60;
            UploadSection.AnalyzeClicked]).
  discriminate.
Defined.

Example handleAnalyze_has_no_guard_of_its_own :
  let ready := UploadSection.onState (fun _ => sixtySeconds) UploadSection.mounted in
  let once := UploadSection.handleAnalyze (Some "true"%string) ready in
  let twice := UploadSection.handleAnalyze (Some "true"%string) once in
  Hook.loading (UseVideoAnalysis.world once) = true
  /\ List.length (UseVideoAnalysis.tasks once) = 1%nat
  /\ List.length (UseVideoAnalysis.tasks twice) = 2%nat
  /\ List.length (Hook.trace (UseVideoAnalysis.world twice)) = 2%nat.
Proof. vm_compute. repeat split. Qed.

(** ** The synthesized document *)

Section DummyDocument.
Import Dummy.

(** A draw of [Math.random()] lies in [[0, 1)]. *)
Definition unitDraws (rnd : nat -> Q) : Prop :=
  forall k : nat, (0 <= rnd k)%Q /\ (rnd k < 1)%Q.

(** The frames of a series rise strictly. *)
Definition increasing (frames : list Z) : Prop :=
  StronglySorted Z.lt frames.

Lemma floorRandom_range (r : Q) (n : Z) :
  (0 <= r)%Q -> (r < 1)%Q -> (0 < n)%Z ->
  (0 <= floorRandom r n < n)%Z.
Proof.
  intros H0 H1 Hn. unfold floorRandom.
  assert (Hq : (0 < inject_Z n)%Q) by (change (inject_Z 0 < inject_Z n)%Q; rewrite <- Zlt_Qlt; exact Hn).
  split.
  - change 0%Z with (Qfloor 0). apply Qfloor_resp_le.
    apply Qmult_le_0_compat; [exact H0|apply Qlt_le_weak, Hq].
  - rewrite Zlt_Qlt.
    apply Qle_lt_trans with (r * inject_Z n)%Q; [apply Qfloor_le|].
    rewrite <- (Qmult_1_l (inject_Z n)) at 2.
    apply Qmult_lt_compat_r; assumption.
Qed.

Lemma frames_of_seq (a n : nat) :
  increasing (map (fun i => (Z.of_nat i + 1)%Z) (seq a n)).
Proof.
  revert a. induction n as [|n IH]; intros a; cbn; constructor.
  - apply IH.
  - apply Forall_forall. intros z Hz.
    apply in_map_iff in Hz. destruct Hz as [i [<- Hi]].
    apply in_seq in Hi. lia.
Qed.

Lemma dummy_position_frames (rnd : nat -> Q) :
  increasing (map Position.frame (positions (dummyResult rnd))).
Proof.
  cbn [dummyResult positions]. unfold arrayFrom.
  rewrite map_map. cbn [Position.frame]. apply frames_of_seq.
Qed.

Lemma dummy_movement_frames (rnd : nat -> Q) :
  increasing (map Movement.frame (movementsPerFrame (dummyResult rnd))).
Proof.
  cbn [dummyResult movementsPerFrame]. unfold arrayFrom.
  rewrite map_map. cbn [Movement.frame]. apply frames_of_seq.
Qed.

Lemma dummy_positions_fit (rnd : nat -> Q) :
  unitDraws rnd ->
  (Z.of_nat (List.length (positions (dummyResult rnd)))
   <= totalFrames (dummyResult rnd))%Z.
Proof.
  intros Hr. cbn [dummyResult positions totalFrames]. unfold arrayFrom.
  rewrite length_map, length_seq.
  destruct (Hr 8%nat) as [Ha Hb]. destruct (Hr 0%nat) as [Hc Hd].
  pose proof (@floorRandom_range (rnd 8%nat) 50 Ha Hb eq_refl).
  pose proof (@floorRandom_range (rnd 0%nat) 500 Hc Hd eq_refl).
  lia.
Qed.

End DummyDocument.

(** ** The pieces of [analyzeVideo] *)

Section Orchestration.
Import Hook UseVideoAnalysis.
Local Open Scope string_scope.

Variable C : Type.
Variable setAlert : Alert.t -> C -> C * Outcome unit.
Variable REACT_APP_USE_REAL_API : option string.

(** The piece stopped at an [await]. *)
Definition suspended (o : Outcome Ctl) : bool :=
  match o with
  | Returned (Suspended _) => true
  | _ => false
  end.

(** The caller's [setAlert] returns normally, as a state setter does. *)
Definition quiet : Prop :=
  forall (a : Alert.t) (c : C), snd (setAlert a c) = Returned tt.

Lemma callSetAlert_quiet (a : Alert.t) (w : World C) :
  quiet ->
  callSetAlert setAlert a w
  = (mkWorld (loading w) (results w) (fst (setAlert a (caller w)))
             (trace w ++ [AlertCall a]), Returned tt).
Proof.
  intros Hq. unfold callSetAlert. specialize (Hq a (caller w)).
  destruct (setAlert a (caller w)) as [c' o]. cbn in *. subst. reflexivity.
Qed.

Lemma guarded_clears_loading (m : M C Ctl) (w : World C) :
  suspended (snd (guarded setAlert m w)) = false ->
  loading (fst (guarded setAlert m w)) = false.
Proof.
  unfold guarded.
  match goal with |- context [tryCatch m ?h w] =>
    destruct (tryCatch m h w) as [w' [[p|v]|e]] end; cbn;
    [discriminate|reflexivity|reflexivity].
Qed.

Lemma guardedV1_clears_loading (m : M C Ctl) (w : World C) :
  suspended (snd (guardedV1 setAlert m w)) = false ->
  loading (fst (guardedV1 setAlert m w)) = false.
Proof.
  unfold guardedV1.
  match goal with |- context [tryCatch m ?h w] =>
    destruct (tryCatch m h w) as [w' [[p|v]|e]] end; cbn;
    [discriminate|reflexivity|reflexivity].
Qed.

(** C9.  Whatever the caller's [setAlert] does, and in both versions of
    the hook: a piece of [analyzeVideo] that leaves the function, by
    returning (after a remote success or with the demo document) or by
    throwing, leaves it with the loading flag down. *)
Theorem loading_cleared_on_every_exit :
  forall (w : World C) (a : ApiReal.Args)
         (o : Outcome (option AnalysisResult)) (rnd : nat -> Q)
         (piece : M C Ctl),
    In piece [analyzeVideo setAlert REACT_APP_USE_REAL_API a;
              afterApi setAlert o;
              afterDelay setAlert rnd;
              analyzeVideoV1 setAlert a;
              afterDelayV1 setAlert rnd] ->
    suspended (snd (piece w)) = false ->
    loading (fst (piece w)) = false.
Proof.
  intros w a o rnd piece Hin.
  cbn [In] in Hin.
  destruct Hin as [<-|[<-|[<-|[<-|[<-|[]]]]]];
    first [apply guarded_clears_loading | apply guardedV1_clears_loading].
Qed.

(** The same, seen from the scheduler: a step that ends a call leaves
    the flag down. *)
Lemma completed_call_clears_loading (s : Sys C) (ev : Event)
      (done : Outcome (option AnalysisResult)) :
  snd (step setAlert REACT_APP_USE_REAL_API s ev) = Some done ->
  loading (world (fst (step setAlert REACT_APP_USE_REAL_API s ev))) = false.
Proof.
  assert (G : forall (r : World C * Outcome Ctl) id rest n,
             (suspended (snd r) = false -> loading (fst r) = false) ->
             snd (conclude id rest n r) <> None ->
             loading (world (fst (conclude id rest n r))) = false).
  { intros [w' [[p|v]|e]] id rest n H; cbn in *; intros Hd;
      try (apply H; reflexivity). congruence. }
  destruct ev as [a|id o|id rnd]; cbn [step]; intros Hd.
  - apply G; [apply guarded_clears_loading|rewrite Hd; discriminate].
  - destruct (take id (tasks s)) as [[[early|] rest]|]; try discriminate.
    apply G; [apply guarded_clears_loading|rewrite Hd; discriminate].
  - destruct (take id (tasks s)) as [[[early|] rest]|]; try discriminate.
    apply G; [apply guarded_clears_loading|rewrite Hd; discriminate].
Qed.

(** A pending call does end: the piece after the timer always leaves the
    function, and the piece after the remote call leaves it or waits for
    the timer only. *)
Lemma pending_call_ends (w : World C)
      (o : Outcome (option AnalysisResult)) (rnd : nat -> Q) :
  suspended (snd (afterDelay setAlert rnd w)) = false
  /\ suspended (snd (afterDelayV1 setAlert rnd w)) = false
  /\ (suspended (snd (afterApi setAlert o w)) = true ->
      snd (afterApi setAlert o w) = Returned (Suspended AwaitDelay)).
Proof.
  repeat split.
  - unfold afterDelay, guarded, tryCatch, bind, callSetAlert. cbn.
    destruct (setAlert _ (caller w)) as [c [[]|e]]; cbn;
      try reflexivity.
    destruct (setAlert _ c) as [c' [[]|e']]; reflexivity.
  - unfold afterDelayV1, guardedV1, tryCatch, bind, callSetAlert. cbn.
    destruct (setAlert _ (caller w)) as [c [[]|e]]; cbn;
      try reflexivity.
    destruct (setAlert _ c) as [c' [[]|e']]; reflexivity.
  - unfold afterApi, guarded, tryCatch, bind, callSetAlert. cbn.
    destruct o as [v|e]; cbn;
      repeat (match goal with
              | |- context [setAlert ?a ?c] =>
                  destruct (setAlert a c) as [? [[]|?]]; cbn
              end); intros; try reflexivity; try discriminate.
Qed.

Lemma useRealAPI_off :
  REACT_APP_USE_REAL_API <> Some "true" ->
  useRealAPI REACT_APP_USE_REAL_API = false.
Proof.
  intros H. unfold useRealAPI.
  destruct REACT_APP_USE_REAL_API as [s|]; [|reflexivity].
  destruct (String.eqb_spec s "true"); [subst; congruence|reflexivity].
Qed.

Lemma analyzeVideo_demo (a : ApiReal.Args) (w : World C) :
  useRealAPI REACT_APP_USE_REAL_API = false ->
  analyzeVideo setAlert REACT_APP_USE_REAL_API a w
  = (mkWorld true (results w) (caller w) (trace w ++ [SetTimeout 1500]),
     Returned (Suspended AwaitDelay)).
Proof.
  intros Hu. unfold analyzeVideo. rewrite Hu. reflexivity.
Qed.

Lemma analyzeVideo_posts (a : ApiReal.Args) (form : ApiReal.FormData)
      (w : World C) :
  useRealAPI REACT_APP_USE_REAL_API = true ->
  ApiReal.validate a = inr form ->
  analyzeVideo setAlert REACT_APP_USE_REAL_API a w
  = (mkWorld true (results w) (caller w) (trace w ++ [Fetch form]),
     Returned (Suspended (AwaitApi None))).
Proof.
  intros Hu Hv. unfold analyzeVideo, callApi. rewrite Hu, Hv. reflexivity.
Qed.

Definition demoDone : Alert.t :=
  Alert.mk "Demo-Analyse erfolgreich abgeschlossen" Alert.success.

Definition demoDoneV1 : Alert.t :=
  Alert.mk "Analyse erfolgreich abgeschlossen" Alert.success.

Definition backendDone : Alert.t :=
  Alert.mk "Analyse erfolgreich mit Backend abgeschlossen" Alert.success.

Definition backendDown (e : JsError) : Alert.t :=
  Alert.mk ("Backend nicht verfügbar, verwende Demo-Daten: " ++ Js.message e)
           Alert.warning.

Lemma afterDelay_quiet (rnd : nat -> Q) (w : World C) :
  quiet ->
  afterDelay setAlert rnd w
  = (mkWorld false (Some (Dummy.dummyResult rnd))
             (fst (setAlert demoDone (caller w)))
             (trace w ++ [AlertCall demoDone]),
     Returned (Finished (Some (Dummy.dummyResult rnd)))).
Proof.
  intros Hq. unfold afterDelay, guarded, tryCatch, bind, setResults.
  rewrite callSetAlert_quiet by exact Hq. reflexivity.
Qed.

Lemma afterDelayV1_quiet (rnd : nat -> Q) (w : World C) :
  quiet ->
  afterDelayV1 setAlert rnd w
  = (mkWorld false (Some (Dummy.dummyResultV1 rnd))
             (fst (setAlert demoDoneV1 (caller w)))
             (trace w ++ [AlertCall demoDoneV1]),
     Returned (Finished (Some (Dummy.dummyResultV1 rnd)))).
Proof.
  intros Hq. unfold afterDelayV1, guardedV1, tryCatch, bind, setResults.
  rewrite callSetAlert_quiet by exact Hq. reflexivity.
Qed.

Lemma afterApi_success_quiet (v : option AnalysisResult) (w : World C) :
  quiet ->
  afterApi setAlert (Returned v) w
  = (mkWorld false v (fst (setAlert backendDone (caller w)))
             (trace w ++ [AlertCall backendDone]),
     Returned (Finished v)).
Proof.
  intros Hq. unfold afterApi, guarded, tryCatch, bind, setResults.
  rewrite callSetAlert_quiet by exact Hq. reflexivity.
Qed.

Lemma afterApi_failure_quiet (e : JsError) (w : World C) :
  quiet ->
  afterApi setAlert (Thrown e) w
  = (mkWorld (loading w) (results w)
             (fst (setAlert (backendDown e) (caller w)))
             ((trace w ++ [AlertCall (backendDown e)]) ++ [SetTimeout 1500]),
     Returned (Suspended AwaitDelay)).
Proof.
  intros Hq. unfold afterApi, guarded, tryCatch, bind.
  rewrite callSetAlert_quiet by exact Hq. reflexivity.
Qed.

(** C10.  When [REACT_APP_USE_REAL_API] is not the string "true" (and
    the caller's [setAlert] returns normally), [analyzeVideo] posts no
    request, whatever its arguments: it raises the flag and sets the
    1500 ms timer, nothing else; when the timer fires it stores and
    returns the synthesized document and raises a success alert.  The
    first version of the hook does the same under every configuration. *)
Theorem demo_mode_issues_no_remote_call :
  forall (a : ApiReal.Args) (rnd : nat -> Q) (w w' : World C),
    REACT_APP_USE_REAL_API <> Some "true" ->
    quiet ->
    let done := Alert.mk "Demo-Analyse erfolgreich abgeschlossen"
                         Alert.success in
    let doneV1 := Alert.mk "Analyse erfolgreich abgeschlossen"
                           Alert.success in
    analyzeVideo setAlert REACT_APP_USE_REAL_API a w
    = (mkWorld true (results w) (caller w) (trace w ++ [SetTimeout 1500]),
       Returned (Suspended AwaitDelay))
    /\ afterDelay setAlert rnd w'
       = (mkWorld false (Some (Dummy.dummyResult rnd))
                  (fst (setAlert done (caller w')))
                  (trace w' ++ [AlertCall done]),
          Returned (Finished (Some (Dummy.dummyResult rnd))))
    /\ analyzeVideoV1 setAlert a w
       = (mkWorld true (results w) (caller w) (trace w ++ [SetTimeout 1500]),
          Returned (Suspended AwaitDelay))
    /\ afterDelayV1 setAlert rnd w'
       = (mkWorld false (Some (Dummy.dummyResultV1 rnd))
                  (fst (setAlert doneV1 (caller w')))
                  (trace w' ++ [AlertCall doneV1]),
          Returned (Finished (Some (Dummy.dummyResultV1 rnd)))).
Proof.
  intros a rnd w w' Henv Hq done doneV1.
  split; [apply analyzeVideo_demo, useRealAPI_off, Henv|].
  split; [apply afterDelay_quiet, Hq|].
  split; [reflexivity|apply afterDelayV1_quiet, Hq].
Qed.

(** The failures of the remote call: [fetch] or [response.json()]
    rejects, the status is not 2xx, or the body says [success: false]. *)
Lemma remote_failures (o : ApiReal.FetchOutcome) :
  (exists e, ApiReal.settle o = Thrown e) <->
  match o with
  | ApiReal.Response true body => ApiReal.success body = false
  | _ => True
  end.
Proof.
  destruct o as [e|e|[|] body]; cbn.
  - split; [trivial|intros _; eexists; reflexivity].
  - split; [trivial|intros _; eexists; reflexivity].
  - destruct (ApiReal.success body); cbn.
    + split; [intros [e He]; discriminate|discriminate].
    + split; [reflexivity|intros _; eexists; reflexivity].
  - split; [trivial|intros _; eexists; reflexivity].
Qed.

(** C5.  When the remote call fails with [e] (and the caller's
    [setAlert] returns normally), the hook raises a warning alert that
    names [e.message] and sets the fixed 1500 ms timer; when the timer
    fires it stores and returns the synthesized document, whose [fps] is
    30.0, whose positions are no more than [totalFrames], and whose
    frame numbers rise strictly in both series.  (The draws of
    [Math.random()] lie in [[0, 1)].) *)
Theorem fallback_after_remote_failure :
  forall (e : JsError) (rnd : nat -> Q) (w w' : World C),
    quiet ->
    unitDraws rnd ->
    let warn := Alert.mk ("Backend nicht verfügbar, verwende Demo-Daten: "
                            ++ Js.message e) Alert.warning in
    let d := Dummy.dummyResult rnd in
    afterApi setAlert (Thrown e) w
    = (mkWorld (loading w) (results w) (fst (setAlert warn (caller w)))
               ((trace w ++ [AlertCall warn]) ++ [SetTimeout 1500]),
       Returned (Suspended AwaitDelay))
    /\ snd (afterDelay setAlert rnd w') = Returned (Finished (Some d))
    /\ results (fst (afterDelay setAlert rnd w')) = Some d
    /\ fps d = Some 30.0%Q
    /\ (Z.of_nat (List.length (positions d)) <= totalFrames d)%Z
    /\ increasing (map Position.frame (positions d))
    /\ increasing (map Movement.frame (movementsPerFrame d)).
Proof.
  intros e rnd w w' Hq Hr warn d.
  split; [apply afterApi_failure_quiet, Hq|].
  rewrite afterDelay_quiet by exact Hq. cbn [fst snd results].
  repeat split.
  - apply dummy_positions_fit, Hr.
  - apply dummy_position_frames.
  - apply dummy_movement_frames.
Qed.

(** What the arrival of the answer [o] does to the stored document
    [prev], which effects it has, and whether the flag is down
    afterwards. *)
Definition stored (o : ApiReal.FetchOutcome) (prev : option AnalysisResult)
  : option AnalysisResult :=
  match ApiReal.settle o with
  | Returned r => r
  | Thrown _ => prev
  end.

Definition handled (o : ApiReal.FetchOutcome) : list Effect :=
  match ApiReal.settle o with
  | Returned _ => [AlertCall backendDone]
  | Thrown e => [AlertCall (backendDown e); SetTimeout 1500]
  end.

Definition waiting (id : nat) (o : ApiReal.FetchOutcome)
  : list (nat * Phase) :=
  match ApiReal.settle o with
  | Returned _ => []
  | Thrown _ => [(id, AwaitDelay)]
  end.

Definition flagAfter (o : ApiReal.FetchOutcome) (before : bool) : bool :=
  match ApiReal.settle o with
  | Returned _ => false
  | Thrown _ => before
  end.

(** The step that settles a posted request. *)
Lemma api_settled_step (s : Sys C) (id : nat) (o : ApiReal.FetchOutcome)
      (rest : list (nat * Phase)) :
  quiet ->
  take id (tasks s) = Some (AwaitApi None, rest) ->
  let s' := fst (step setAlert REACT_APP_USE_REAL_API s (ApiSettled id o)) in
  results (world s') = stored o (results (world s))
  /\ trace (world s') = (trace (world s) ++ handled o)%list
  /\ tasks s' = (rest ++ waiting id o)%list
  /\ loading (world s') = flagAfter o (loading (world s))
  /\ calls s' = calls s.
Proof.
  intros Hq Ht s'. subst s'. unfold step. rewrite Ht.
  unfold stored, handled, waiting, flagAfter.
  destruct (ApiReal.settle o) as [r|e].
  - rewrite afterApi_success_quiet by exact Hq. cbn.
    rewrite app_nil_r. repeat split.
  - rewrite afterApi_failure_quiet by exact Hq. cbn.
    rewrite <- app_assoc. repeat split.
Qed.

(** The step that fires the timer of a call. *)
Lemma delay_elapsed_step (s : Sys C) (id : nat) (rnd : nat -> Q)
      (rest : list (nat * Phase)) :
  quiet ->
  take id (tasks s) = Some (AwaitDelay, rest) ->
  let s' := fst (step setAlert REACT_APP_USE_REAL_API s
                      (DelayElapsed id rnd)) in
  results (world s') = Some (Dummy.dummyResult rnd)
  /\ tasks s' = rest
  /\ loading (world s') = false.
Proof.
  intros Hq Ht s'. subst s'. unfold step. rewrite Ht.
  rewrite afterDelay_quiet by exact Hq. cbn. repeat split.
Qed.

(** C2, as amended.  The hook numbers nothing and discards nothing:
    the answer to a request is handled when it arrives, whatever has
    been dispatched since.  Two requests are posted one after the
    other; the answer to the second arrives first, the answer to the
    first arrives last.  Each arrival does what it would do alone: a
    successful answer is stored at once, with the success alert, and
    lowers the flag; a failed one leaves the stored document as it is,
    raises the warning and sets the timer, and when that timer fires
    the demo document is stored (for either request).  So with two
    successful answers the stored document is the second request's
    after the first arrival and the first request's in the end. *)
Theorem last_response_to_arrive_wins :
  forall (s : Sys C) (a1 a2 : ApiReal.Args) (f1 f2 : ApiReal.FormData)
         (o1 o2 : ApiReal.FetchOutcome) (rnd : nat -> Q),
    quiet ->
    useRealAPI REACT_APP_USE_REAL_API = true ->
    tasks s = [] ->
    ApiReal.validate a1 = inr f1 ->
    ApiReal.validate a2 = inr f2 ->
    let id1 := S (calls s) in
    let id2 := S (S (calls s)) in
    let go := step setAlert REACT_APP_USE_REAL_API in
    let s2 := fst (go (fst (go s (Call a1))) (Call a2)) in
    let s3 := fst (go s2 (ApiSettled id2 o2)) in
    let s4 := fst (go s3 (ApiSettled id1 o1)) in
    let s5 := fst (go s4 (DelayElapsed id1 rnd)) in
    tasks s2 = [(id1, AwaitApi None); (id2, AwaitApi None)]
    /\ trace (world s2) = ((trace (world s) ++ [Fetch f1]) ++ [Fetch f2])%list
    /\ results (world s2) = results (world s)
    /\ results (world s3) = stored o2 (results (world s))
    /\ trace (world s3) = (trace (world s2) ++ handled o2)%list
    /\ tasks s3 = ((id1, AwaitApi None) :: waiting id2 o2)%list
    /\ loading (world s3) = flagAfter o2 true
    /\ results (world s4) = stored o1 (results (world s3))
    /\ trace (world s4) = (trace (world s3) ++ handled o1)%list
    /\ tasks s4 = (waiting id2 o2 ++ waiting id1 o1)%list
    /\ loading (world s4) = flagAfter o1 (loading (world s3))
    /\ ((exists e1, ApiReal.settle o1 = Thrown e1) ->
        results (world s5) = Some (Dummy.dummyResult rnd)
        /\ tasks s5 = waiting id2 o2)
    /\ ((exists e2, ApiReal.settle o2 = Thrown e2) ->
        results (world (fst (go s4 (DelayElapsed id2 rnd))))
        = Some (Dummy.dummyResult rnd)).
Proof.
  intros s a1 a2 f1 f2 o1 o2 rnd Hq Hu Ht H1 H2 id1 id2 go s2 s3 s4 s5.
  assert (E2 : s2 = mkSys (mkWorld true (results (world s)) (caller (world s))
                             ((trace (world s) ++ [Fetch f1]) ++ [Fetch f2])%list)
                          [(id1, AwaitApi None); (id2, AwaitApi None)] id2).
  { subst s2 go. unfold step.
    rewrite (analyzeVideo_posts _ _ Hu H1), Ht. cbn.
    rewrite (analyzeVideo_posts _ _ Hu H2). reflexivity. }
  assert (N : Nat.eqb id1 id2 = false)
    by (apply Nat.eqb_neq; subst id1 id2; lia).
  assert (N' : Nat.eqb id2 id1 = false)
    by (apply Nat.eqb_neq; subst id1 id2; lia).
  assert (T2 : take id2 (tasks s2) = Some (AwaitApi None, [(id1, AwaitApi None)])).
  { rewrite E2. cbn [tasks take]. rewrite N, Nat.eqb_refl. reflexivity. }
  destruct (@api_settled_step s2 id2 o2 _ Hq T2) as [R3 [Tr3 [Ts3 [L3 _]]]].
  fold go in R3, Tr3, Ts3, L3. fold s3 in R3, Tr3, Ts3, L3.
  assert (T3 : take id1 (tasks s3) = Some (AwaitApi None, waiting id2 o2)).
  { rewrite Ts3. cbn [app take]. rewrite Nat.eqb_refl. reflexivity. }
  destruct (@api_settled_step s3 id1 o1 _ Hq T3) as [R4 [Tr4 [Ts4 [L4 _]]]].
  fold go in R4, Tr4, Ts4, L4. fold s4 in R4, Tr4, Ts4, L4.
  split; [rewrite E2; reflexivity|]. split; [rewrite E2; reflexivity|].
  split; [rewrite E2; reflexivity|].
  split; [rewrite R3, E2; reflexivity|]. split; [exact Tr3|].
  split; [exact Ts3|]. split; [rewrite L3, E2; reflexivity|].
  split; [exact R4|]. split; [exact Tr4|]. split; [exact Ts4|].
  split; [exact L4|]. split.
  - intros [e1 He1].
    assert (T4 : take id1 (tasks s4) = Some (AwaitDelay, waiting id2 o2)).
    { rewrite Ts4. unfold waiting. rewrite He1.
      destruct (ApiReal.settle o2); cbn [app take];
        rewrite ?N', Nat.eqb_refl; reflexivity. }
    destruct (@delay_elapsed_step s4 id1 rnd _ Hq T4) as [R5 [Ts5 _]].
    split; [exact R5|exact Ts5].
  - intros [e2 He2].
    assert (T4 : take id2 (tasks s4) = Some (AwaitDelay, waiting id1 o1)).
    { rewrite Ts4. unfold waiting at 1. rewrite He2.
      cbn [app take]. rewrite Nat.eqb_refl. reflexivity. }
    destruct (@delay_elapsed_step s4 id2 rnd _ Hq T4) as [R5 _].
    exact R5.
Qed.

End Orchestration.

(** ** The component as wired: remote failures *)

Section RemoteFailure.
Import Hook UploadSection.
Local Open Scope string_scope.

Variable REACT_APP_USE_REAL_API : option string.

Lemma setter_is_quiet : quiet UploadSection.setAlert.
Proof. intros a c. reflexivity. Qed.

(** C4, as amended.  The hook has no mode without fallback.  Whenever
    the pending remote call of the component fails with [e], the
    component shows the warning that names [e.message] and keeps both
    stored documents while the call waits for the timer; when the timer
    fires the synthesized document replaces them, the success alert is
    shown and the results page is opened.  The call ends returned, not
    thrown: the hook has raised the warning and the success alert and
    no other, and the flag is down. *)
Theorem remote_failure_always_falls_back :
  forall (s : Sys) (id : nat) (early : option JsError)
         (o : ApiReal.FetchOutcome) (e : JsError) (rnd : nat -> Q),
    UseVideoAnalysis.tasks s = [(id, AwaitApi early)] ->
    match early with
    | Some e' => Thrown e'
    | None => ApiReal.settle o
    end = Thrown e ->
    let warn := Alert.mk ("Backend nicht verfügbar, verwende Demo-Daten: "
                            ++ Js.message e) Alert.warning in
    let done := Alert.mk "Demo-Analyse erfolgreich abgeschlossen"
                         Alert.success in
    let s1 := step REACT_APP_USE_REAL_API s (ApiSettled id o) in
    let s2 := step REACT_APP_USE_REAL_API s1 (DelayElapsed id rnd) in
    alert (stateOf s1) = Some warn
    /\ UseVideoAnalysis.tasks s1 = [(id, AwaitDelay)]
    /\ results (UseVideoAnalysis.world s1) = results (UseVideoAnalysis.world s)
    /\ pageResults (stateOf s1) = pageResults (stateOf s)
    /\ alert (stateOf s2) = Some done
    /\ results (UseVideoAnalysis.world s2) = Some (Dummy.dummyResult rnd)
    /\ pageResults (stateOf s2) = Some (Dummy.dummyResult rnd)
    /\ activeSection (stateOf s2) = "results"
    /\ trace (UseVideoAnalysis.world s2)
       = (((trace (UseVideoAnalysis.world s) ++ [AlertCall warn])
             ++ [SetTimeout 1500]) ++ [AlertCall done])%list
    /\ UseVideoAnalysis.tasks s2 = []
    /\ loading (UseVideoAnalysis.world s2) = false.
Proof.
  intros s id early o e rnd Ht Hfail warn done s1 s2.
  assert (E1 : s1 = UseVideoAnalysis.mkSys
                      (mkWorld (loading (UseVideoAnalysis.world s))
                               (results (UseVideoAnalysis.world s))
                               (putAlert (Some warn) (stateOf s))
                               ((trace (UseVideoAnalysis.world s)
                                   ++ [AlertCall warn]) ++ [SetTimeout 1500])%list)
                      [(id, AwaitDelay)] (UseVideoAnalysis.calls s)).
  { subst s1. cbn [step]. unfold hookStep, UseVideoAnalysis.step.
    rewrite Ht. cbn [UseVideoAnalysis.take]. rewrite Nat.eqb_refl, Hfail.
    rewrite afterApi_failure_quiet by exact setter_is_quiet. reflexivity. }
  assert (E2 : s2 = UseVideoAnalysis.mkSys
                      (mkWorld false (Some (Dummy.dummyResult rnd))
                               (setActiveSection "results"
                                  (setPageResults (Some (Dummy.dummyResult rnd))
                                     (putAlert (Some done)
                                        (putAlert (Some warn) (stateOf s)))))
                               (((trace (UseVideoAnalysis.world s)
                                    ++ [AlertCall warn]) ++ [SetTimeout 1500])
                                  ++ [AlertCall done])%list)
                      [] (UseVideoAnalysis.calls s)).
  { subst s2. rewrite E1. cbn [step]. unfold hookStep, UseVideoAnalysis.step.
    cbn [UseVideoAnalysis.tasks UseVideoAnalysis.take]. rewrite Nat.eqb_refl.
    rewrite afterDelay_quiet by exact setter_is_quiet. reflexivity. }
  rewrite E2, E1. cbn. repeat split; reflexivity.
Qed.

End RemoteFailure.

(** *** Concrete runs *)

Definition batVideo : File := mkFile "bat.mp4".

Definition halves : nat -> Q := fun _ => (1 # 2)%Q.

Definition earlier : AnalysisResult :=
  mkResult 7 true 42 (Point.mk 1 2) (Point.mk 3 4) "00:00:09"
           (Some 25%Q) (Some 2%Q) [] [].

Definition later : AnalysisResult :=
  mkResult 9 false 0 (Point.mk 0 0) (Point.mk 0 0) "00:00:11"
           (Some 25%Q) (Some 3%Q) [] [].

Definition answer (r : AnalysisResult) : ApiReal.FetchOutcome :=
  ApiReal.Response true (ApiReal.mkBody true None (Some r)).

Definition unreachable : ApiReal.FetchOutcome :=
  ApiReal.NetworkError (mkError "Failed to fetch").

Definition isErrorAlert (eff : Hook.Effect) : bool :=
  match eff with
  | Hook.AlertCall (Alert.mk _ Alert.error) => true
  | _ => false
  end.

Lemma halves_are_draws : unitDraws halves.
Proof. intros k. split; vm_compute; [discriminate|reflexivity]. Qed.

(** C4, as the specification states it, fails.  With the real API
    switched on (the only configuration that posts a request) and a
    document stored by an earlier analysis, a second analysis whose
    request cannot reach the server ends with the success alert, with no
    error alert raised, and with the earlier document replaced by the
    synthesized one. *)
Lemma remote_failure_is_not_left_failed :
  let env := Some "true"%string in
  let before :=
    UploadSection.run env UploadSection.mounted
      [UploadSection.FileSelected (Some batVideo);
       UploadSection.LoadedMetadata 60;
       UploadSection.AnalyzeClicked;
       UploadSection.ApiSettled 1 (answer earlier)] in
  let after :=
    UploadSection.run env before
      [UploadSection.AnalyzeClicked;
       UploadSection.ApiSettled 2 unreachable;
       UploadSection.DelayElapsed 2 halves] in
  UploadSection.pageResults (UploadSection.stateOf before) = Some earlier
  /\ Hook.results (UseVideoAnalysis.world before) = Some earlier
  /\ UploadSection.pageResults (UploadSection.stateOf after)
     = Some (Dummy.dummyResult halves)
  /\ Hook.results (UseVideoAnalysis.world after)
     = Some (Dummy.dummyResult halves)
  /\ Dummy.dummyResult halves <> earlier
  /\ UploadSection.alert (UploadSection.stateOf after)
     = Some (Alert.mk "Demo-Analyse erfolgreich abgeschlossen"%string
                      Alert.success)
  /\ existsb isErrorAlert (Hook.trace (UseVideoAnalysis.world after)) = false.
Proof.
  vm_compute. repeat split. discriminate.
Qed.

(** C2, as the specification states it, fails.  Two calls are made one
    after the other, the answer to the second arrives first and the
    answer to the first arrives last: the stored document is the first
    call's. *)
Lemma stale_response_overwrites_result :
  let args := ApiReal.mkArgs (Some batVideo) (Some 0%Q) (Some 60%Q) None in
  let s :=
    UseVideoAnalysis.run UploadSection.setAlert (Some "true"%string)
      UploadSection.mounted
      [UseVideoAnalysis.Call args;
       UseVideoAnalysis.Call args;
       UseVideoAnalysis.ApiSettled 2 (answer later);
       UseVideoAnalysis.ApiSettled 1 (answer earlier)] in
  Hook.results (UseVideoAnalysis.world s) = Some earlier
  /\ Some earlier <> Some later
  /\ UseVideoAnalysis.tasks s = [].
Proof.
  vm_compute. repeat split. discriminate.
Qed.

(** *** The theorems at concrete inputs *)

(** A caller whose [setAlert] always throws. *)
Definition brokenAlert (a : Alert.t) (c : unit) : unit * Outcome unit :=
  (c, Thrown (mkError "setAlert is not a function")).

(** The error exit: the timer fires, the success alert throws, the
    handler's own alert throws again, and the flag is down all the
    same. *)
Lemma loading_cleared_on_every_exit_witness :
  let w0 := Hook.mkWorld true None tt [] in
  snd (UseVideoAnalysis.afterDelay brokenAlert halves w0)
  = Thrown (mkError "setAlert is not a function")
  /\ Hook.loading (fst (UseVideoAnalysis.afterDelay brokenAlert halves w0))
     = false.
Proof.
  split; [reflexivity|].
  apply (@loading_cleared_on_every_exit unit brokenAlert None
           (Hook.mkWorld true None tt [])
           (ApiReal.mkArgs None None None None)
           (Thrown (mkError "Failed to fetch")) halves
           (UseVideoAnalysis.afterDelay brokenAlert halves)).
  - right. right. left. reflexivity.
  - reflexivity.
Defined.

Lemma demo_mode_issues_no_remote_call_witness :
  let w0 := UseVideoAnalysis.world UploadSection.mounted in
  let a := ApiReal.mkArgs (Some batVideo) (Some 0%Q) (Some 60%Q) None in
  UseVideoAnalysis.analyzeVideo UploadSection.setAlert None a w0
  = (Hook.mkWorld true None UploadSection.initial [Hook.SetTimeout 1500],
     Returned (Hook.Suspended Hook.AwaitDelay))
  /\ Hook.results (fst (UseVideoAnalysis.afterDelay UploadSection.setAlert
                          halves w0))
     = Some (Dummy.dummyResult halves).
Proof.
  destruct (@demo_mode_issues_no_remote_call
              UploadSection.State UploadSection.setAlert None
              (ApiReal.mkArgs (Some batVideo) (Some 0%Q) (Some 60%Q) None)
              halves
              (UseVideoAnalysis.world UploadSection.mounted)
              (UseVideoAnalysis.world UploadSection.mounted))
    as [H1 [H2 _]].
  - discriminate.
  - exact setter_is_quiet.
  - split; [exact H1|]. rewrite H2. reflexivity.
Defined.

Lemma fallback_after_remote_failure_witness :
  let w0 := UseVideoAnalysis.world UploadSection.mounted in
  let d := Dummy.dummyResult halves in
  snd (UseVideoAnalysis.afterApi UploadSection.setAlert
         (Thrown (mkError "Failed to fetch")) w0)
  = Returned (Hook.Suspended Hook.AwaitDelay)
  /\ fps d = Some 30.0%Q
  /\ (Z.of_nat (List.length (positions d)) <= totalFrames d)%Z
  /\ increasing (map Position.frame (positions d))
  /\ increasing (map Movement.frame (movementsPerFrame d)).
Proof.
  destruct (@fallback_after_remote_failure
              UploadSection.State UploadSection.setAlert
              (mkError "Failed to fetch") halves
              (UseVideoAnalysis.world UploadSection.mounted)
              (UseVideoAnalysis.world UploadSection.mounted)
              setter_is_quiet halves_are_draws)
    as [H1 [_ [_ H]]].
  split; [rewrite H1; reflexivity|exact H].
Defined.

Lemma last_response_to_arrive_wins_witness :
  let a := ApiReal.mkArgs (Some batVideo) (Some 0%Q) (Some 60%Q) None in
  let go := UseVideoAnalysis.step UploadSection.setAlert
              (Some "true"%string) in
  let s2 := fst (go (fst (go UploadSection.mounted (UseVideoAnalysis.Call a)))
                    (UseVideoAnalysis.Call a)) in
  let s3 := fst (go s2 (UseVideoAnalysis.ApiSettled 2 (answer later))) in
  let s4 := fst (go s3 (UseVideoAnalysis.ApiSettled 1 (answer earlier))) in
  Hook.results (UseVideoAnalysis.world s3) = Some later
  /\ Hook.results (UseVideoAnalysis.world s4) = Some earlier
  /\ UseVideoAnalysis.tasks s4 = [].
Proof.
  destruct (@last_response_to_arrive_wins
              UploadSection.State UploadSection.setAlert (Some "true"%string)
              UploadSection.mounted
              (ApiReal.mkArgs (Some batVideo) (Some 0%Q) (Some 60%Q) None)
              (ApiReal.mkArgs (Some batVideo) (Some 0%Q) (Some 60%Q) None)
              (ApiReal.mkForm batVideo 0%Q (Some 60%Q) 1.0%Q)
              (ApiReal.mkForm batVideo 0%Q (Some 60%Q) 1.0%Q)
              (answer earlier) (answer later) halves
              setter_is_quiet eq_refl eq_refl eq_refl eq_refl)
    as [_ [_ [_ [H3 [_ [_ [_ [H4 [_ [H5 _]]]]]]]]]].
  split; [exact H3|]. split; [exact H4|exact H5].
Defined.

Lemma remote_failure_always_falls_back_witness :
  let env := Some "true"%string in
  let s := UploadSection.run env UploadSection.mounted
             [UploadSection.FileSelected (Some batVideo);
              UploadSection.LoadedMetadata 60;
              UploadSection.AnalyzeClicked] in
  let s1 := UploadSection.step env s (UploadSection.ApiSettled 1 unreachable) in
  let s2 := UploadSection.step env s1 (UploadSection.DelayElapsed 1 halves) in
  UploadSection.alert (UploadSection.stateOf s1)
  = Some (Alert.mk "Backend nicht verfügbar, verwende Demo-Daten: Failed to fetch"%string
                   Alert.warning)
  /\ UploadSection.pageResults (UploadSection.stateOf s2)
     = Some (Dummy.dummyResult halves)
  /\ Hook.loading (UseVideoAnalysis.world s2) = false.
Proof.
  destruct (@remote_failure_always_falls_back (Some "true"%string)
              (UploadSection.run (Some "true"%string) UploadSection.mounted
                 [UploadSection.FileSelected (Some batVideo);
                  UploadSection.LoadedMetadata 60;
                  UploadSection.AnalyzeClicked])
              1%nat None unreachable (mkError "Failed to fetch") halves
              eq_refl eq_refl)
    as [H1 [_ [_ [_ [_ [_ [H2 [_ [_ [_ H3]]]]]]]]]].
  split; [exact H1|]. split; [exact H2|exact H3].
Defined.

(** ** The debounced sensitivity *)

Section Debounce.
Import Settings.
Local Open Scope Z_scope.

(** At most one timer is pending; it is the one the ref points to and
    it is not yet due. *)
Definition single (st : State) : Prop :=
  timers st = []
  \/ exists tm, timers st = [tm]
                /\ debounceTimeout st = Some (id tm)
                /\ id tm <> 0%nat
                /\ now st < due tm.

(** An input cancels the pending timer, if any, and sets a new one. *)
Lemma handleChange_single (v : Q) (st : State) :
  single st ->
  handleChange v st
  = mkState (sensitivity st) v (Some (S (lastId st)))
            [mkTimer (S (lastId st)) (now st + 300) v]
            (S (lastId st)) (now st) (commits st).
Proof.
  intros [Ht|[tm [Ht [Hr [Hi _]]]]]; unfold handleChange;
    cbn [debounceTimeout].
  - destruct (debounceTimeout st) as [i|]; [destruct (Nat.eqb i 0)|];
      cbn; rewrite Ht; reflexivity.
  - rewrite Hr. apply Nat.eqb_neq in Hi. rewrite Hi. cbn.
    rewrite Ht. cbn. rewrite Nat.eqb_refl. reflexivity.
Qed.

(** Time passing short of the due time fires nothing. *)
Lemma elapse_before_due (dt : Z) (st : State) (tm : Timer) :
  timers st = [tm] ->
  now st + dt < due tm ->
  elapse dt st
  = mkState (sensitivity st) (tempSensitivity st) (debounceTimeout st)
            [tm] (lastId st) (now st + dt) (commits st).
Proof.
  intros Ht Hlt. unfold elapse. rewrite Ht. cbn.
  destruct (Z.leb_spec (due tm) (now st + dt)); [lia|]. reflexivity.
Qed.

(** Time passing up to the due time or beyond runs the callback once. *)
Lemma elapse_past_due (dt : Z) (st : State) (tm : Timer) :
  timers st = [tm] ->
  due tm <= now st + dt ->
  elapse dt st
  = fire (due tm) (value tm)
         (mkState (sensitivity st) (tempSensitivity st) (debounceTimeout st)
                  [] (lastId st) (now st + dt) (commits st)).
Proof.
  intros Ht Hle. unfold elapse. rewrite Ht. cbn.
  destruct (Z.leb_spec (due tm) (now st + dt)); [|lia]. reflexivity.
Qed.

(** The state [since] milliseconds after an input of [v], when nothing
    has happened since: commits and committed value are those of
    [base], the slider shows [v], and the one pending timer carries [v]
    and is due 300 ms after the input. *)
Definition armed (base st : State) (v : Q) (since : Z) : Prop :=
  commits st = commits base
  /\ sensitivity st = sensitivity base
  /\ tempSensitivity st = v
  /\ exists i, i <> 0%nat
               /\ timers st = [mkTimer i (now st - since + 300) v]
               /\ debounceTimeout st = Some i.

Lemma handleChange_arms (v : Q) (st : State) :
  single st -> armed st (handleChange v st) v 0.
Proof.
  intros Hs. rewrite handleChange_single by exact Hs.
  split; [reflexivity|]. split; [reflexivity|]. split; [reflexivity|].
  exists (S (lastId st)). cbn. split; [discriminate|].
  split; [do 2 f_equal; lia|reflexivity].
Qed.

Lemma armed_waits (base st : State) (v : Q) (g : Z) :
  armed base st v 0 -> 0 <= g < 300 ->
  armed base (elapse g st) v g /\ single (elapse g st).
Proof.
  intros [Hc [Hs [Hv [i [Hi [Ht Hr]]]]]] Hg.
  rewrite (@elapse_before_due g _ _ Ht) by (cbn; lia).
  split.
  - split; [exact Hc|]. split; [exact Hs|]. split; [exact Hv|].
    exists i. cbn. split; [exact Hi|]. split; [|exact Hr].
    do 2 f_equal; lia.
  - right. exists (mkTimer i (now st - 0 + 300) v). cbn.
    split; [reflexivity|]. split; [exact Hr|]. split; [exact Hi|lia].
Qed.

Lemma last_skips_default {A : Type} (x : A) (xs : list A) (d d' : A) :
  last (x :: xs) d = last (x :: xs) d'.
Proof.
  revert x. induction xs as [|y ys IH]; intros x; [reflexivity|].
  change (last (y :: ys) d = last (y :: ys) d'). apply IH.
Qed.

Lemma burst_arms (more : list (Z * Q)) (base st : State) (v : Q) :
  armed base st v 0 ->
  Forall (fun gv => 0 <= fst gv < 300) more ->
  armed base
        (run st (flat_map (fun gv => [Elapse (fst gv); Change (snd gv)]) more))
        (last (map snd more) v) 0.
Proof.
  revert st v. induction more as [|[g v'] more IH]; intros st v Ha Hall.
  - exact Ha.
  - inversion Hall as [|? ? Hg Hrest]; subst. cbn in Hg.
    cbn [flat_map app run fold_left step fst snd].
    destruct (@armed_waits _ _ _ g Ha Hg) as [[Hc [Hs' _]] Hs].
    pose proof (@handleChange_arms v' _ Hs) as Ha'.
    assert (Hb : armed base (handleChange v' (elapse g st)) v' 0).
    { destruct Ha' as [H1 [H2 H3]].
      split; [congruence|]. split; [congruence|exact H3]. }
    specialize (IH _ _ Hb Hrest).
    replace (last (map snd ((g, v') :: more)) v)
      with (last (map snd more) v'); [exact IH|].
    cbn [map snd]. destruct (map snd more) as [|x xs]; [reflexivity|].
    change (last (x :: xs) v' = last (x :: xs) v). apply last_skips_default.
Qed.

Lemma elapse_idle (q : Z) (st : State) :
  timers st = [] ->
  commits (elapse q st) = commits st
  /\ sensitivity (elapse q st) = sensitivity st
  /\ timers (elapse q st) = [].
Proof.
  intros Ht. unfold elapse. rewrite Ht. cbn. repeat split.
Qed.

(** C6.  Start from a state with at most one pending timer, the one the
    ref points to.  A burst of inputs, each less than 300 ms after the
    one before, commits nothing while it lasts and ends with the slider
    showing the last value and with exactly one timer pending, which
    carries the last value and is due 300 ms after the last input.
    While less than 300 ms have passed since that input nothing is
    committed; once 300 ms have passed [setSensitivity] has been called
    exactly once, at that due time and with the last value, which is
    now the committed value; no timer is left and nothing more is
    committed later. *)
Theorem burst_commits_once :
  forall (st : State) (v0 : Q) (more : list (Z * Q)),
    single st ->
    Forall (fun gv => 0 <= fst gv < 300) more ->
    let st' := run st (burst v0 more) in
    let v := lastValue v0 more in
    commits st' = commits st
    /\ sensitivity st' = sensitivity st
    /\ tempSensitivity st' = v
    /\ (exists i, timers st' = [mkTimer i (now st' + 300) v]
                  /\ debounceTimeout st' = Some i)
    /\ (forall q, 0 <= q < 300 ->
                  commits (elapse q st') = commits st
                  /\ sensitivity (elapse q st') = sensitivity st)
    /\ (forall q q', 300 <= q ->
                     commits (elapse q st') = commits st ++ [(now st' + 300, v)]
                     /\ sensitivity (elapse q st') = v
                     /\ timers (elapse q st') = []
                     /\ commits (elapse q' (elapse q st'))
                        = commits st ++ [(now st' + 300, v)]).
Proof.
  intros st v0 more Hs Hall st' v.
  assert (Ha : armed st st' v 0).
  { subst st' v. unfold burst, lastValue.
    cbn [run fold_left step].
    apply burst_arms; [apply handleChange_arms, Hs|exact Hall]. }
  clearbody st' v.
  destruct Ha as [Hc [Hse [Hv [i [Hi [Ht Hr]]]]]].
  replace (now st' - 0 + 300) with (now st' + 300) in Ht by lia.
  split; [exact Hc|]. split; [exact Hse|]. split; [exact Hv|].
  split; [exists i; split; assumption|]. split.
  - intros q Hq.
    rewrite (@elapse_before_due q _ _ Ht) by (cbn; lia).
    cbn. split; assumption.
  - intros q q' Hq.
    rewrite (@elapse_past_due q _ _ Ht) by (cbn; lia).
    cbn. rewrite Hc. repeat split.
Qed.

(** Every state the component reaches has at most one pending timer. *)
Lemma step_keeps_single (st : State) (ev : Event) :
  single st ->
  match ev with Elapse dt => 0 <= dt | Change _ => True end ->
  single (step st ev).
Proof.
  intros Hs Hev. destruct ev as [v|dt]; cbn [step].
  - rewrite handleChange_single by exact Hs.
    right. eexists. cbn. split; [reflexivity|]. cbn.
    split; [reflexivity|]. split; [discriminate|lia].
  - destruct Hs as [Ht|[tm [Ht [Hr [Hi Hd]]]]].
    + left. apply elapse_idle, Ht.
    + destruct (Z.lt_ge_cases (now st + dt) (due tm)) as [Hlt|Hge].
      * rewrite (@elapse_before_due dt _ _ Ht Hlt).
        right. exists tm. cbn. repeat split; assumption.
      * rewrite (@elapse_past_due dt _ _ Ht Hge). left. reflexivity.
Qed.

Lemma run_keeps_single (evs : list Event) (st : State) :
  single st ->
  Forall (fun ev => match ev with Elapse dt => 0 <= dt | Change _ => True end)
         evs ->
  single (run st evs).
Proof.
  revert st. induction evs as [|ev evs IH]; intros st Hs Hall; [exact Hs|].
  inversion Hall as [|? ? Hev Hrest]; subst.
  cbn [run fold_left]. apply IH; [|exact Hrest].
  apply step_keeps_single; assumption.
Qed.

End Debounce.

(** The scenario of the specification: ten inputs fired 10 ms apart. *)
Definition tenInputs : list (Z * Q) :=
  map (fun k => (10%Z, (Z.of_nat k # 20)%Q)) (seq 3 9).

Lemma burst_commits_once_witness :
  let st' := Settings.run Settings.initial (Settings.burst 0.1%Q tenInputs) in
  Settings.commits st' = []
  /\ Settings.commits (Settings.elapse 299 st') = []
  /\ Settings.commits (Settings.elapse 300 st') = [(390%Z, (11 # 20)%Q)]
  /\ Settings.sensitivity (Settings.elapse 300 st') = (11 # 20)%Q.
Proof.
  destruct (@burst_commits_once Settings.initial 0.1%Q tenInputs)
    as [H1 [_ [_ [_ [H2 H3]]]]].
  - left. reflexivity.
  - repeat constructor; cbn; lia.
  - split; [exact H1|]. split; [apply (H2 299%Z); lia|].
    destruct (H3 300%Z 0%Z) as [H4 [H5 _]]; [lia|].
    split; [exact H4|exact H5].
Defined.

(* ================================================================== *)
(** * Part III: further properties of the code *)
(* ================================================================== *)

From Stdlib Require Import DecimalZ DecimalPos.

(** ** utils/export.js with the error path of printing

    [Array.prototype.join] converts every element with [ToString].  The
    conversion of an object first looks for its [toString] method: an
    own property of that name hides the one of [Object.prototype], and
    since no value here is a function the conversion then fails ([valueOf]
    returns the object itself) with a [TypeError].  An array is joined
    element by element, so it fails when one of its elements does. *)

Module ExportFull.
Local Open Scope string_scope.

Definition hidesToString (fields : list (string * JsValue)) : bool :=
  existsb (fun kv => String.eqb (fst kv) "toString") fields.

Definition cannotConvert : JsError :=
  mkError "Cannot convert object to primitive value".

(** [ToString(v)], which may throw. *)
Fixpoint toString (v : JsValue) : Outcome string :=
  match v with
  | JArr elems =>
      match
        (fix each (l : list JsValue) : Outcome (list string) :=
           match l with
           | [] => Returned []
           | x :: l' =>
               match
                 match x with
                 | JUndefined | JNull => Returned ""
                 | _ => toString x
                 end
               with
               | Thrown e => Thrown e
               | Returned s =>
                   match each l' with
                   | Thrown e => Thrown e
                   | Returned ss => Returned (s :: ss)
                   end
               end
           end) elems
      with
      | Thrown e => Thrown e
      | Returned ss => Returned (String.concat "," ss)
      end
  | JObj fields =>
      if hidesToString fields then Thrown cannotConvert
      else Returned "[object Object]"
  | _ => Returned (Js.toString v)
  end.

Definition joinItem (v : JsValue) : Outcome string :=
  match v with
  | JUndefined | JNull => Returned ""
  | _ => toString v
  end.

(** The elements of an array, converted from left to right. *)
Fixpoint joinItems (l : list JsValue) : Outcome (list string) :=
  match l with
  | [] => Returned []
  | x :: l' =>
      match joinItem x with
      | Thrown e => Thrown e
      | Returned s =>
          match joinItems l' with
          | Thrown e => Thrown e
          | Returned ss => Returned (s :: ss)
          end
      end
  end.

Definition join (sep : string) (l : list JsValue) : Outcome string :=
  match joinItems l with
  | Thrown e => Thrown e
  | Returned ss => Returned (String.concat sep ss)
  end.

(** [data.map(row => Object.values(row).join(","))], row by row. *)
Fixpoint mapRows (rows : list JsValue) : Outcome (list string) :=
  match rows with
  | [] => Returned []
  | row :: rest =>
      match objectValues row with
      | Thrown e => Thrown e
      | Returned vs =>
          match join "," vs with
          | Thrown e => Thrown e
          | Returned line =>
              match mapRows rest with
              | Thrown e => Thrown e
              | Returned ls => Returned (line :: ls)
              end
          end
      end
  end.

Definition exportAsCSV (data : JsValue) : Outcome ExportJs.Download :=
  match data with
  | JArr rows =>
      match mapRows rows with
      | Thrown e => Thrown e
      | Returned ls =>
          let csv := String.concat ExportJs.newline ls in
          Returned (ExportJs.mkDownload "results.csv" "text/csv" csv)
      end
  | JUndefined =>
      Thrown (mkError "Cannot read properties of undefined (reading 'map')")
  | JNull =>
      Thrown (mkError "Cannot read properties of null (reading 'map')")
  | _ => Thrown (mkError "data.map is not a function")
  end.

(** [ToString(v)] does not throw. *)
Fixpoint converts (v : JsValue) : bool :=
  match v with
  | JArr elems =>
      (fix all (l : list JsValue) : bool :=
         match l with
         | [] => true
         | x :: l' => converts x && all l'
         end) elems
  | JObj fields => negb (hidesToString fields)
  | _ => true
  end.

(** [Number.MAX_SAFE_INTEGER]: up to it every integer is a number of
    JavaScript and prints with all its digits. *)
Definition safe (z : Z) : bool := (Z.abs z <=? 9007199254740991)%Z.

(** The value prints in JavaScript as [Js.toString] prints it: no
    conversion fails and every number is a safe integer. *)
Fixpoint printable (v : JsValue) : bool :=
  match v with
  | JNum z => safe z
  | JArr elems =>
      (fix all (l : list JsValue) : bool :=
         match l with
         | [] => true
         | x :: l' => printable x && all l'
         end) elems
  | JObj fields => negb (hidesToString fields)
  | _ => true
  end.

End ExportFull.

Section CsvFurther.
Import ExportJs CsvText.
Local Open Scope string_scope.

(** [null] or [undefined]. *)
Definition nullish (v : JsValue) : bool :=
  match v with
  | JUndefined | JNull => true
  | _ => false
  end.

Lemma converts_array (elems : list JsValue) :
  ExportFull.converts (JArr elems) = forallb ExportFull.converts elems.
Proof.
  induction elems as [|x l IH]; [reflexivity|].
  cbn [forallb]. rewrite <- IH. reflexivity.
Qed.

Lemma printable_array (elems : list JsValue) :
  ExportFull.printable (JArr elems) = forallb ExportFull.printable elems.
Proof.
  induction elems as [|x l IH]; [reflexivity|].
  cbn [forallb]. rewrite <- IH. reflexivity.
Qed.

Lemma toString_array (elems : list JsValue) :
  ExportFull.toString (JArr elems) = ExportFull.join "," elems.
Proof.
  unfold ExportFull.join.
  assert (E : forall l,
             (fix each (l : list JsValue) : Outcome (list string) :=
                match l with
                | [] => Returned []
                | x :: l' =>
                    match
                      match x with
                      | JUndefined | JNull => Returned ""
                      | _ => ExportFull.toString x
                      end
                    with
                    | Thrown e => Thrown e
                    | Returned s =>
                        match each l' with
                        | Thrown e => Thrown e
                        | Returned ss => Returned (s :: ss)
                        end
                    end
                end) l = ExportFull.joinItems l).
  { induction l as [|x l IH]; [reflexivity|].
    cbn [ExportFull.joinItems]. rewrite <- IH. destruct x; reflexivity. }
  cbn [ExportFull.toString]. rewrite E. reflexivity.
Qed.

Lemma Js_toString_array (elems : list JsValue) :
  Js.toString (JArr elems) = String.concat "," (map joinItem elems).
Proof.
  cbn [Js.toString]. f_equal.
  induction elems as [|x l IH]; [reflexivity|].
  cbn [map]. rewrite <- IH. destruct x; reflexivity.
Qed.

(** Induction on a value with the hypothesis for every element of an
    array. *)
Lemma JsValue_elements_ind (P : JsValue -> Prop) :
  P JUndefined -> P JNull -> (forall b, P (JBool b)) ->
  (forall z, P (JNum z)) -> (forall s, P (JStr s)) ->
  (forall elems, Forall P elems -> P (JArr elems)) ->
  (forall fields, P (JObj fields)) ->
  forall v, P v.
Proof.
  intros HU HN HB HZ HS HA HO.
  fix IH 1. intros v.
  destruct v as [| | b | z | s | elems | fields].
  - exact HU.
  - exact HN.
  - apply HB.
  - apply HZ.
  - apply HS.
  - apply HA.
    induction elems as [|x l IHl]; constructor; [apply IH | exact IHl].
  - apply HO.
Qed.

(** The conversion throws exactly on the values that do not convert,
    and prints the others as [Js.toString] does. *)
Lemma toString_spec :
  forall v : JsValue,
    ExportFull.toString v
    = if ExportFull.converts v then Returned (Js.toString v)
      else Thrown ExportFull.cannotConvert.
Proof.
  induction v as [| | b | z | s | elems IH | fields]
    using JsValue_elements_ind; try reflexivity.
  - rewrite toString_array, converts_array, Js_toString_array.
    unfold ExportFull.join.
    assert (E : ExportFull.joinItems elems
                = if forallb ExportFull.converts elems
                  then Returned (map joinItem elems)
                  else Thrown ExportFull.cannotConvert).
    { induction IH as [|x l Hx _ IHl]; [reflexivity|].
      cbn [ExportFull.joinItems forallb map].
      assert (Ex : ExportFull.joinItem x
                   = if ExportFull.converts x then Returned (joinItem x)
                     else Thrown ExportFull.cannotConvert).
      { destruct x; try reflexivity; exact Hx. }
      rewrite Ex, IHl.
      destruct (ExportFull.converts x); [|reflexivity].
      destruct (forallb ExportFull.converts l); reflexivity. }
    rewrite E. destruct (forallb ExportFull.converts elems); reflexivity.
  - cbn. destruct (ExportFull.hidesToString fields); reflexivity.
Qed.

Lemma joinItems_converts (vs : list JsValue) :
  ExportFull.joinItems vs
  = if forallb ExportFull.converts vs then Returned (map joinItem vs)
    else Thrown ExportFull.cannotConvert.
Proof.
  induction vs as [|x l IH]; [reflexivity|].
  cbn [ExportFull.joinItems forallb map].
  assert (Ex : ExportFull.joinItem x
               = if ExportFull.converts x then Returned (joinItem x)
                 else Thrown ExportFull.cannotConvert).
  { destruct x; try reflexivity; apply toString_spec. }
  rewrite Ex, IH.
  destruct (ExportFull.converts x); [|reflexivity].
  destruct (forallb ExportFull.converts l); reflexivity.
Qed.

Lemma join_converts (sep : string) (vs : list JsValue) :
  ExportFull.join sep vs
  = if forallb ExportFull.converts vs then Returned (Js.join sep vs)
    else Thrown ExportFull.cannotConvert.
Proof.
  unfold ExportFull.join. rewrite joinItems_converts.
  destruct (forallb ExportFull.converts vs); reflexivity.
Qed.

(** Where every conversion succeeds the two embeddings of [export.js]
    agree. *)
Lemma mapRows_agree (rows : list JsValue) (ls : list string) :
  ExportFull.mapRows rows = Returned ls -> mapRows rows = Returned ls.
Proof.
  revert ls. induction rows as [|row rows IH]; intros ls; cbn; [trivial|].
  destruct (objectValues row) as [vs|e]; [|discriminate].
  rewrite join_converts.
  destruct (forallb ExportFull.converts vs); [|discriminate].
  destruct (ExportFull.mapRows rows) as [ls'|e]; [|discriminate].
  rewrite (IH ls' eq_refl). trivial.
Qed.

Lemma exportAsCSV_agree (data : JsValue) (d : Download) :
  ExportFull.exportAsCSV data = Returned d -> exportAsCSV data = Returned d.
Proof.
  destruct data; cbn; try discriminate.
  destruct (ExportFull.mapRows elems) as [ls|e] eqn:E; [|discriminate].
  rewrite (mapRows_agree _ E). trivial.
Qed.

(** The values [Object.values(row)] lists; none for a row on which it
    throws. *)
Definition valuesOf (row : JsValue) : list JsValue :=
  match objectValues row with
  | Returned vs => vs
  | Thrown _ => []
  end.

(** The callback of [data.map] throws on this row: the row is [null]
    or [undefined], or one of its values does not convert to a
    string. *)
Definition rowFails (row : JsValue) : bool :=
  nullish row || negb (forallb ExportFull.converts (valuesOf row)).

Lemma mapRows_throws (rows : list JsValue) :
  (exists e, ExportFull.mapRows rows = Thrown e)
  <-> existsb rowFails rows = true.
Proof.
  induction rows as [|row rows IH]; cbn [ExportFull.mapRows existsb].
  - split; [intros [e He]; discriminate|discriminate].
  - unfold rowFails at 1, valuesOf.
    destruct (objectValues row) as [vs|e0] eqn:Hrow.
    + assert (Hn : nullish row = false)
        by (destruct row; try reflexivity; discriminate).
      rewrite Hn, join_converts. cbn [orb].
      destruct (forallb ExportFull.converts vs); cbn [negb orb].
      * destruct (ExportFull.mapRows rows) as [ls|e1].
        -- split; [intros [e He]; discriminate|].
           intros H. apply IH in H. destruct H as [e He]. discriminate.
        -- split; [intros _; apply IH; eexists; reflexivity|].
           intros _. eexists; reflexivity.
      * split; [reflexivity|intros _; eexists; reflexivity].
    + assert (Hn : nullish row = true)
        by (destruct row; try discriminate; reflexivity).
      rewrite Hn. split; [reflexivity|intros _; eexists; reflexivity].
Qed.

(** [exportAsCSV] throws, and downloads nothing, exactly when its
    argument is not an array, or one of the rows is [null] or
    [undefined], or one of the values of a row does not convert to a
    string: an object with an own [toString] property, or an array
    that holds such an object (at any depth of arrays).  Every other
    array is exported. *)
Theorem exportAsCSV_throws_iff :
  forall data : JsValue,
    (exists e, ExportFull.exportAsCSV data = Thrown e) <->
    match data with
    | JArr rows => existsb rowFails rows = true
    | _ => True
    end.
Proof.
  intros data.
  destruct data as [| | b | z | s | rows | fields];
    cbn [ExportFull.exportAsCSV];
    try (split; [trivial|intros _; eexists; reflexivity]).
  rewrite <- mapRows_throws.
  destruct (ExportFull.mapRows rows) as [ls|e].
  - split; intros [e He]; discriminate.
  - split; intros _; eexists; reflexivity.
Qed.

(** A row whose one value hides [toString] is not exported, although
    the embedding without the error path prints it. *)
Lemma exportAsCSV_hidden_toString :
  ExportFull.exportAsCSV (JArr [JObj [("v", JObj [("toString", JNum 1)])]])
  = Thrown ExportFull.cannotConvert
  /\ exists d,
       exportAsCSV (JArr [JObj [("v", JObj [("toString", JNum 1)])]])
       = Returned d.
Proof. split; [reflexivity|eexists; reflexivity]. Qed.

(** How often [c] occurs in [s]. *)
Fixpoint countChar (c : ascii) (s : string) : nat :=
  match s with
  | EmptyString => 0
  | String a s' => (if Ascii.eqb a c then 1 else 0) + countChar c s'
  end.

Lemma splitOn_nonempty (c : ascii) (s : string) : splitOn c s <> [].
Proof.
  destruct s as [|a s]; cbn; [discriminate|].
  destruct (Ascii.eqb a c); [discriminate|].
  destruct (splitOn c s); discriminate.
Qed.

Lemma length_splitOn (c : ascii) (s : string) :
  List.length (splitOn c s) = S (countChar c s).
Proof.
  induction s as [|a s IH]; cbn; [reflexivity|].
  destruct (Ascii.eqb a c); cbn; [rewrite IH; reflexivity|].
  destruct (splitOn c s) as [|h t] eqn:E; [|exact IH].
  exfalso. exact (splitOn_nonempty c s E).
Qed.

Lemma countChar_app (c : ascii) (s t : string) :
  countChar c (s ++ t) = (countChar c s + countChar c t)%nat.
Proof.
  induction s as [|a s IH]; cbn; [reflexivity|]. rewrite IH. lia.
Qed.

Lemma countChar_concat (c : ascii) (l : list string) :
  l <> [] ->
  S (countChar c (String.concat (String c EmptyString) l))
  = (List.length l + list_sum (map (countChar c) l))%nat.
Proof.
  induction l as [|x l IH]; [congruence|]. intros _.
  destruct l as [|y l].
  - cbn. lia.
  - change (String.concat (String c EmptyString) (x :: y :: l))
      with (x ++ String c (String.concat (String c EmptyString) (y :: l))).
    rewrite countChar_app. cbn [countChar]. rewrite Ascii.eqb_refl.
    assert (H : y :: l <> []) by discriminate.
    specialize (IH H).
    remember (String.concat (String c EmptyString) (y :: l)) as rest.
    remember (y :: l) as tl.
    unfold list_sum in *. simpl. lia.
Qed.

(** Splitting does not see where one value ends and the next begins. *)
Lemma splitOn_app (c : ascii) (s rest : string) :
  splitOn c (s ++ String c rest) = (splitOn c s ++ splitOn c rest)%list.
Proof.
  induction s as [|a s IH]; cbn.
  - rewrite Ascii.eqb_refl. reflexivity.
  - destruct (Ascii.eqb a c); [rewrite IH; reflexivity|].
    rewrite IH.
    destruct (splitOn c s) as [|h t] eqn:E; [|reflexivity].
    exfalso. exact (splitOn_nonempty c s E).
Qed.

Lemma splitOn_joined (c : ascii) (l : list string) :
  l <> [] ->
  splitOn c (String.concat (String c EmptyString) l)
  = flat_map (splitOn c) l.
Proof.
  induction l as [|x l IH]; [congruence|]. intros _.
  destruct l as [|y l].
  - cbn. rewrite app_nil_r. reflexivity.
  - change (String.concat (String c EmptyString) (x :: y :: l))
      with (x ++ String c (String.concat (String c EmptyString) (y :: l))).
    rewrite splitOn_app, IH by discriminate. reflexivity.
Qed.

Lemma printable_converts :
  forall v : JsValue,
    ExportFull.printable v = true -> ExportFull.converts v = true.
Proof.
  induction v as [| | b | z | s | elems IH | fields]
    using JsValue_elements_ind; try reflexivity.
  - rewrite printable_array, converts_array.
    induction IH as [|x l Hx _ IHl]; [reflexivity|].
    cbn [forallb]. intros H. apply andb_true_iff in H. destruct H as [H1 H2].
    rewrite (Hx H1), (IHl H2). reflexivity.
  - trivial.
Qed.

(** Every value of every row prints. *)
Definition printableRows (rows : list (list (string * JsValue))) : bool :=
  forallb (fun fields => forallb ExportFull.printable (map snd fields)) rows.

Lemma mapRows_printable (rows : list (list (string * JsValue))) :
  printableRows rows = true ->
  ExportFull.mapRows (map JObj rows)
  = Returned (map (fun fields => String.concat "," (printed fields)) rows).
Proof.
  induction rows as [|fields rows IH]; [reflexivity|].
  cbn [printableRows forallb]. intros H.
  apply andb_true_iff in H. destruct H as [H1 H2].
  cbn [map ExportFull.mapRows objectValues].
  rewrite join_converts.
  assert (Hc : forallb ExportFull.converts (map snd fields) = true).
  { apply forallb_forall. intros v Hv. apply printable_converts.
    exact (proj1 (forallb_forall _ _) H1 v Hv). }
  rewrite Hc, (IH H2). reflexivity.
Qed.

(** Commas inside values are neither quoted nor escaped.  For a
    non-empty array of objects with at least one field each, whose
    values print and hold no line feed, [exportAsCSV] downloads a file
    in which the cells of each line are the pieces of the row's values
    cut at their own commas, nothing added: a line has one cell per
    field plus one for every comma inside the printed values. *)
Theorem csv_row_cell_count :
  forall rows : list (list (string * JsValue)),
    rows <> [] ->
    printableRows rows = true ->
    (forall fields, In fields rows ->
       fields <> []
       /\ Forall (fun s => hasChar lf s = false) (printed fields)) ->
    exists d,
      ExportFull.exportAsCSV (JArr (map JObj rows)) = Returned d
      /\ map cells (lines (content d))
         = map (fun fields => flat_map cells (printed fields)) rows
      /\ map (fun line => List.length (cells line)) (lines (content d))
         = map (fun fields =>
                  (List.length fields
                   + list_sum (map (countChar comma) (printed fields)))%nat)
               rows.
Proof.
  intros rows Hne Hp Hrows.
  unfold ExportFull.exportAsCSV. rewrite (mapRows_printable _ Hp).
  eexists. split; [reflexivity|].
  cbn [content]. unfold lines, newline.
  rewrite splitOn_concat.
  - rewrite !map_map. split; apply map_ext_in; intros fields Hin;
      destruct (Hrows fields Hin) as [Hf _]; unfold cells;
      change "," with (String comma EmptyString).
    + apply splitOn_joined.
      unfold printed. destruct fields; [congruence|discriminate].
    + rewrite length_splitOn, countChar_concat.
      * unfold printed. rewrite !length_map. reflexivity.
      * unfold printed. destruct fields; [congruence|discriminate].
  - destruct rows; [congruence|discriminate].
  - apply Forall_forall. intros line Hin.
    apply in_map_iff in Hin. destruct Hin as [fields [<- Hin]].
    apply hasChar_concat; [reflexivity|].
    exact (proj2 (Hrows fields Hin)).
Qed.

Lemma csv_row_cell_count_witness :
  exists d,
    ExportFull.exportAsCSV
      (JArr (map JObj [[("label", JStr "a,b"); ("n", JNum 7)]]))
    = Returned d
    /\ map cells (lines (content d)) = [["a"; "b"; "7"]]
    /\ map (fun line => List.length (cells line)) (lines (content d))
       = [3%nat].
Proof.
  apply (@csv_row_cell_count [[("label", JStr "a,b"); ("n", JNum 7)]]).
  - discriminate.
  - reflexivity.
  - intros fields [<-|[]]. split; [discriminate|].
    repeat constructor.
Defined.

(** Reading the export back, cell by cell: a number, and a row of a
    positions table. *)
Definition readZ (s : string) : option Z :=
  option_map Z.of_int (NilZero.int_of_string s).

Definition readPosition (cs : list string) : option Position.t :=
  match cs with
  | [f; x; y; w; h; t] =>
      match readZ f, readZ x, readZ y, readZ w, readZ h with
      | Some f', Some x', Some y', Some w', Some h' =>
          Some (Position.mk f' x' y' w' h' t)
      | _, _, _, _, _ => None
      end
  | _ => None
  end.

Definition readPositions (csv : string) : list (option Position.t) :=
  map (fun line => readPosition (cells line)) (lines csv).

(** The five numbers of a position are safe integers. *)
Definition safePosition (p : Position.t) : bool :=
  ExportFull.safe (Position.frame p)
  && ExportFull.safe (Position.x p)
  && ExportFull.safe (Position.y p)
  && ExportFull.safe (Position.width p)
  && ExportFull.safe (Position.height p).

Lemma readZ_showZ (z : Z) : readZ (showZ z) = Some z.
Proof.
  unfold readZ, showZ. rewrite NilZero.isi.
  - cbn. rewrite DecimalZ.of_to. reflexivity.
  - destruct z; cbn; try discriminate.
    intros [= H]. exact (Unsigned.to_uint_nonnil _ H).
  - destruct z; cbn; try discriminate.
    intros [= H]. exact (Unsigned.to_uint_nonnil _ H).
Qed.

Lemma digits_clean (c : ascii) (d : Decimal.uint) :
  c = comma \/ c = lf ->
  hasChar c (NilEmpty.string_of_uint d) = false.
Proof.
  intros [->| ->]; induction d; cbn; try reflexivity; assumption.
Qed.

Lemma showZ_clean (c : ascii) (z : Z) :
  c = comma \/ c = lf -> hasChar c (showZ z) = false.
Proof.
  intros Hc. unfold showZ, NilZero.string_of_int.
  assert (D : forall d, hasChar c (NilZero.string_of_uint d) = false).
  { intros d. destruct d; try (apply (digits_clean _ Hc)).
    destruct Hc as [->| ->]; reflexivity. }
  destruct (Z.to_int z) as [d|d]; [apply D|].
  cbn [hasChar]. rewrite D. destruct Hc as [->| ->]; reflexivity.
Qed.

(** The printed row of a position object. *)
Lemma printed_position (p : Position.t) :
  printed (ToJs.positionFields p)
  = [showZ (Position.frame p); showZ (Position.x p); showZ (Position.y p);
     showZ (Position.width p); showZ (Position.height p);
     Position.timestamp p].
Proof. reflexivity. Qed.

Lemma position_line_clean (c : ascii) (p : Position.t) :
  c = comma \/ c = lf ->
  hasChar c (Position.timestamp p) = false ->
  Forall (fun s => hasChar c s = false) (printed (ToJs.positionFields p)).
Proof.
  intros Hc Ht. rewrite printed_position.
  repeat (constructor; [apply showZ_clean, Hc|]).
  constructor; [exact Ht|constructor].
Qed.

Lemma positions_printable (ps : list Position.t) :
  forallb safePosition ps = true ->
  printableRows (map ToJs.positionFields ps) = true.
Proof.
  induction ps as [|p ps IH]; [reflexivity|].
  cbn [forallb map printableRows]. intros H.
  apply andb_true_iff in H. destruct H as [Hp Hps].
  apply andb_true_iff. split; [|exact (IH Hps)].
  unfold safePosition in Hp.
  repeat (apply andb_true_iff in Hp; destruct Hp as [Hp ?]).
  cbn. repeat (apply andb_true_iff; split; try assumption). reflexivity.
Qed.

(** Exporting a non-empty array of position objects whose numbers
    are safe integers and whose timestamps hold no comma and no line
    feed loses nothing: the file has one line per position, each line
    has six cells, and reading the cells back gives the positions
    again, in order. *)
Theorem exportAsCSV_positions_round_trip :
  forall ps : list Position.t,
    ps <> [] ->
    forallb safePosition ps = true ->
    (forall p, In p ps ->
               hasChar comma (Position.timestamp p) = false
               /\ hasChar lf (Position.timestamp p) = false) ->
    exists d,
      ExportFull.exportAsCSV (JArr (map ToJs.position ps)) = Returned d
      /\ List.length (lines (content d)) = List.length ps
      /\ Forall (fun line => List.length (cells line) = 6%nat)
                (lines (content d))
      /\ readPositions (content d) = map Some ps.
Proof.
  intros ps Hne Hsafe Hclean.
  assert (E : map ToJs.position ps = map JObj (map ToJs.positionFields ps))
    by (rewrite map_map; reflexivity).
  unfold ExportFull.exportAsCSV.
  rewrite E, (mapRows_printable _ (positions_printable _ Hsafe)).
  eexists. split; [reflexivity|].
  cbn [content]. unfold readPositions, lines, newline.
  assert (L : forall p, In p ps ->
                cells (String.concat "," (printed (ToJs.positionFields p)))
                = printed (ToJs.positionFields p)).
  { intros p Hp. unfold cells. apply (@splitOn_concat comma).
    - rewrite printed_position. discriminate.
    - apply position_line_clean; [left; reflexivity|apply Hclean, Hp]. }
  rewrite splitOn_concat.
  - rewrite !length_map. split; [reflexivity|]. split.
    + apply Forall_forall. intros line Hin.
      rewrite map_map in Hin. apply in_map_iff in Hin.
      destruct Hin as [p [<- Hp]]. rewrite (L p Hp). reflexivity.
    + rewrite !map_map. apply map_ext_in. intros p Hp.
      rewrite (L p Hp), printed_position. cbn [readPosition].
      rewrite !readZ_showZ. destruct p; reflexivity.
  - destruct ps; [congruence|discriminate].
  - apply Forall_forall. intros line Hin.
    rewrite map_map in Hin. apply in_map_iff in Hin.
    destruct Hin as [p [<- Hp]].
    apply hasChar_concat; [reflexivity|].
    apply position_line_clean; [right; reflexivity|apply Hclean, Hp].
Qed.

Lemma exportAsCSV_positions_round_trip_witness :
  exists d,
    ExportFull.exportAsCSV (JArr (map ToJs.position [samplePosition]))
    = Returned d
    /\ List.length (lines (content d)) = 1%nat
    /\ Forall (fun line => List.length (cells line) = 6%nat)
              (lines (content d))
    /\ readPositions (content d) = [Some samplePosition].
Proof.
  apply (@exportAsCSV_positions_round_trip [samplePosition]).
  - discriminate.
  - reflexivity.
  - intros p [<-|[]]. split; reflexivity.
Defined.

End CsvFurther.

(** ** utils/api-real.js: what the validation accepts *)

Section ApiValidation.
Local Open Scope Q_scope.

Definition orDefault (d : Q) (v : option Q) : Q :=
  match v with Some x => x | None => d end.

Lemma Qle_bool_false (x y : Q) : Qle_bool x y = false <-> y < x.
Proof.
  split.
  - intros H. apply Qnot_le_lt. intros Hle.
    apply Qle_bool_iff in Hle. congruence.
  - intros H. destruct (Qle_bool x y) eqn:E; [|reflexivity].
    apply Qle_bool_iff in E. exfalso. exact (Qlt_not_le _ _ H E).
Qed.

(** [analyzeVideo] of [api-real.js] posts a request exactly when a file
    is given, the start time (0 when missing) is not negative and the
    end time, when given, lies after the start; the form then carries
    the file, that start time, the end time as given and the
    sensitivity, 1.0 when missing. *)
Theorem validate_accepts_iff :
  forall (a : ApiReal.Args) (form : ApiReal.FormData),
    ApiReal.validate a = inr form <->
    exists f : File,
      ApiReal.videoFile a = Some f
      /\ 0 <= orDefault 0 (ApiReal.startTime a)
      /\ match ApiReal.endTime a with
         | Some e => orDefault 0 (ApiReal.startTime a) < e
         | None => True
         end
      /\ form = ApiReal.mkForm f (orDefault 0 (ApiReal.startTime a))
                               (ApiReal.endTime a)
                               (orDefault 1.0 (ApiReal.uploadSensitivity a)).
Proof.
  intros [file start stop sens] form. unfold ApiReal.validate. cbn.
  fold (orDefault 0 start). fold (orDefault 1.0 sens).
  destruct file as [f|].
  - destruct (Qle_bool 0 (orDefault 0 start)) eqn:H0; cbn.
    + apply Qle_bool_iff in H0.
      destruct stop as [e|].
      * destruct (Qle_bool e (orDefault 0 start)) eqn:He.
        -- split; [discriminate|].
           intros [f' [_ [_ [Hlt _]]]]. apply Qle_bool_iff in He.
           exfalso. exact (Qlt_not_le _ _ Hlt He).
        -- apply Qle_bool_false in He. split.
           ++ intros [= <-]. exists f. repeat split; assumption.
           ++ intros [f' [[= <-] [_ [_ ->]]]]. reflexivity.
      * split.
        -- intros [= <-]. exists f. repeat split; assumption.
        -- intros [f' [[= <-] [_ [_ ->]]]]. reflexivity.
    + split; [discriminate|].
      intros [f' [_ [Hle _]]]. apply Qle_bool_iff in Hle. congruence.
  - split; [discriminate|]. intros [f' [Hf _]]. discriminate.
Qed.

End ApiValidation.

(** ** components/UploadSection.jsx: what every run keeps *)

Section UploadInvariants.
Import Hook UploadSection.
Local Open Scope Q_scope.

Variable REACT_APP_USE_REAL_API : option string.

(** The duration is not negative, the start is not negative, and the
    end lies between 0 and the duration. *)
Definition SegmentOk (st : State) : Prop :=
  0 <= duration st /\ 0 <= startTime st /\ 0 <= endTime st <= duration st.

(** The video element never reports a negative duration. *)
Definition plausible (ev : Event) : Prop :=
  match ev with
  | LoadedMetadata dur => 0 <= dur
  | _ => True
  end.

(** A posted form as the component builds it: start not negative, an
    end time after the start, and the default sensitivity. *)
Definition wellFormed (eff : Effect) : Prop :=
  match eff with
  | Fetch form =>
      0 <= ApiReal.start_time form
      /\ (exists e, ApiReal.end_time form = Some e
                    /\ ApiReal.start_time form < e)
      /\ ApiReal.upload_sensitivity form = 1.0
  | _ => True
  end.

(** The pending call was not rejected by the validation of
    [api-real.js]. *)
Definition notRejected (t : nat * Phase) : Prop :=
  match snd t with
  | AwaitApi (Some _) => False
  | _ => True
  end.

Definition Kept (s : Sys) : Prop :=
  SegmentOk (stateOf s)
  /\ Forall wellFormed (trace (UseVideoAnalysis.world s))
  /\ Forall notRejected (UseVideoAnalysis.tasks s).

Lemma take_keeps (P : nat * Phase -> Prop) (id : nat)
      (ts rest : list (nat * Phase)) (p : Phase) :
  UseVideoAnalysis.take id ts = Some (p, rest) ->
  Forall P ts -> Forall P rest.
Proof.
  revert rest. induction ts as [|[i q] ts IH]; intros rest; cbn;
    [discriminate|].
  destruct (Nat.eqb i id).
  - intros [= <- <-] H. inversion H; assumption.
  - destruct (UseVideoAnalysis.take id ts) as [[q' rest']|]; [|discriminate].
    intros [= <- <-] H. inversion H; subst.
    constructor; [assumption|]. apply IH; [reflexivity|assumption].
Qed.

Lemma onState_keeps (f : State -> State) (s : Sys) :
  Kept s -> SegmentOk (f (stateOf s)) -> Kept (onState f s).
Proof.
  intros [_ [Ht Hp]] Hs. split; [exact Hs|]. split; assumption.
Qed.

Lemma SegmentOk_start (v : Q) (st : State) :
  SegmentOk st -> 0 <= v -> SegmentOk (setStartTime v st).
Proof. intros [Hd [_ He]] Hv. exact (conj Hd (conj Hv He)). Qed.

Lemma SegmentOk_end (v : Q) (st : State) :
  SegmentOk st -> 0 <= v <= duration st -> SegmentOk (setEndTime v st).
Proof. intros [Hd [H0 _]] Hv. exact (conj Hd (conj H0 Hv)). Qed.

(** A settled promise or an elapsed timer touches neither the segment
    nor the network. *)
Lemma settlement_keeps (s : Sys) (ev : UseVideoAnalysis.Event) :
  (forall a, ev <> UseVideoAnalysis.Call a) ->
  Kept s -> Kept (resume (hookStep REACT_APP_USE_REAL_API s ev)).
Proof.
  intros Hev [Hs [Ht Hp]].
  destruct ev as [a|id o|id rnd]; [exfalso; exact (Hev a eq_refl)| |];
    unfold hookStep, UseVideoAnalysis.step.
  - destruct (UseVideoAnalysis.take id (UseVideoAnalysis.tasks s))
      as [[[early|] rest]|] eqn:E; try (split; [|split]; assumption).
    pose proof (@take_keeps notRejected _ _ _ _ E Hp) as Hrest.
    destruct (match early with
              | Some e => Thrown e
              | None => ApiReal.settle o
              end) as [v|e].
    + rewrite afterApi_success_quiet by exact setter_is_quiet.
      destruct v as [r|]; cbn;
        (split; [exact Hs|split; [|exact Hrest]]);
        apply Forall_app; (split; [exact Ht|repeat constructor]).
    + rewrite afterApi_failure_quiet by exact setter_is_quiet. cbn.
      split; [exact Hs|]. split.
      * repeat (apply Forall_app; split); try exact Ht; repeat constructor.
      * apply Forall_app. split; [exact Hrest|repeat constructor].
  - destruct (UseVideoAnalysis.take id (UseVideoAnalysis.tasks s))
      as [[[early|] rest]|] eqn:E; try (split; [|split]; assumption).
    pose proof (@take_keeps notRejected _ _ _ _ E Hp) as Hrest.
    rewrite afterDelay_quiet by exact setter_is_quiet. cbn.
    split; [exact Hs|]. split; [|exact Hrest].
    apply Forall_app. split; [exact Ht|repeat constructor].
Qed.

(** A click that passes the checks of [handleAnalyze] posts a form that
    the validation of [api-real.js] accepts. *)
Lemma dispatch_keeps (s : Sys) (f : File) :
  Kept s ->
  Qle_bool (endTime (stateOf s)) (startTime (stateOf s)) = false ->
  Kept (resume (hookStep REACT_APP_USE_REAL_API s
                  (UseVideoAnalysis.Call
                     (ApiReal.mkArgs (Some f) (Some (startTime (stateOf s)))
                                     (Some (endTime (stateOf s))) None)))).
Proof.
  intros [Hs [Ht Hp]] Hlt.
  destruct Hs as [Hd [H0 He]].
  unfold hookStep, UseVideoAnalysis.step.
  destruct (UseVideoAnalysis.useRealAPI REACT_APP_USE_REAL_API) eqn:Hu.
  - rewrite (@analyzeVideo_posts _ UploadSection.setAlert _ _
               (ApiReal.mkForm f (startTime (stateOf s))
                               (Some (endTime (stateOf s))) 1.0) _ Hu).
    + cbn. split; [exact (conj Hd (conj H0 He))|]. split.
      * apply Forall_app. split; [exact Ht|].
        constructor; [|constructor]. cbn.
        split; [exact H0|]. split; [|reflexivity].
        eexists. split; [reflexivity|]. apply Qle_bool_false, Hlt.
      * apply Forall_app. split; [exact Hp|repeat constructor].
    + unfold ApiReal.validate. cbn.
      apply Qle_bool_iff in H0. rewrite H0. cbn. rewrite Hlt. reflexivity.
  - rewrite analyzeVideo_demo by exact Hu. cbn.
    split; [exact (conj Hd (conj H0 He))|]. split.
    + apply Forall_app. split; [exact Ht|repeat constructor].
    + apply Forall_app. split; [exact Hp|repeat constructor].
Qed.

Lemma step_keeps (s : Sys) (ev : Event) :
  plausible ev -> Kept s -> Kept (step REACT_APP_USE_REAL_API s ev).
Proof.
  intros Hev K. pose proof K as [[Hd [H0 [He1 He2]]] _].
  destruct ev as [file|dur|t|t| |id o|id rnd]; cbn [step].
  - apply onState_keeps; [exact K|].
    destruct file as [f|]; [|repeat split; assumption].
    cbn. repeat split; try assumption; apply Qle_refl.
  - apply onState_keeps; [exact K|]. cbn in Hev. cbn.
    repeat split; try assumption; apply Qle_refl.
  - destruct (controlsShown s); [|exact K].
    apply onState_keeps; [exact K|].
    apply SegmentOk_start; [apply K|apply rangeValue_bounds, Hd].
  - destruct (controlsShown s); [|exact K].
    apply onState_keeps; [exact K|].
    apply SegmentOk_end; [apply K|apply rangeValue_bounds, Hd].
  - destruct (analyzeDisabled s); [exact K|].
    unfold handleAnalyze.
    destruct (videoFile (stateOf s)) as [f|];
      [|apply onState_keeps; [exact K|repeat split; assumption]].
    destruct (Qle_bool (endTime (stateOf s)) (startTime (stateOf s))) eqn:E;
      [apply onState_keeps; [exact K|repeat split; assumption]|].
    apply dispatch_keeps; assumption.
  - apply settlement_keeps; [discriminate|exact K].
  - apply settlement_keeps; [discriminate|exact K].
Qed.

Lemma run_keeps (evs : list Event) (s : Sys) :
  Forall plausible evs -> Kept s -> Kept (run REACT_APP_USE_REAL_API s evs).
Proof.
  revert s. induction evs as [|ev evs IH]; intros s Hall K; [exact K|].
  inversion Hall; subst. cbn [run fold_left].
  apply IH; [assumption|]. apply step_keeps; assumption.
Qed.

Lemma mounted_kept : Kept mounted.
Proof.
  split; [|split; constructor].
  repeat split; cbn; apply Qle_refl.
Qed.

(** Whatever the user and the network do (durations not being
    negative), the segment of the component keeps
    [0 <= duration], [0 <= start] and [0 <= end <= duration]. *)
Theorem segment_stays_plausible :
  forall evs : list Event,
    Forall plausible evs ->
    SegmentOk (stateOf (run REACT_APP_USE_REAL_API mounted evs)).
Proof.
  intros evs Hall. apply (@run_keeps evs mounted Hall mounted_kept).
Qed.

(** Whatever the user and the network do, every request the component
    has posted carries a start time that is not negative, an end time
    after it, and the sensitivity 1.0 (the value chosen in the settings
    is never sent); and no pending call is one that the validation of
    [api-real.js] has rejected. *)
Theorem posted_requests_are_well_formed :
  forall evs : list Event,
    Forall plausible evs ->
    let s := run REACT_APP_USE_REAL_API mounted evs in
    Forall wellFormed (trace (UseVideoAnalysis.world s))
    /\ Forall notRejected (UseVideoAnalysis.tasks s).
Proof.
  intros evs Hall s. apply (@run_keeps evs mounted Hall mounted_kept).
Qed.

End UploadInvariants.

Definition selectAndLoad : list UploadSection.Event :=
  [UploadSection.FileSelected (Some batVideo);
   UploadSection.LoadedMetadata 60;
   UploadSection.EndSlider 45;
   UploadSection.StartSlider 70;
   UploadSection.AnalyzeClicked;
   UploadSection.StartSlider 12;
   UploadSection.AnalyzeClicked].

Lemma selectAndLoad_plausible : Forall plausible selectAndLoad.
Proof. repeat constructor. cbn. discriminate. Qed.

Lemma segment_stays_plausible_witness :
  SegmentOk (UploadSection.stateOf
               (UploadSection.run (Some "true"%string) UploadSection.mounted
                                  selectAndLoad)).
Proof.
  apply (@segment_stays_plausible (Some "true"%string) selectAndLoad).
  exact selectAndLoad_plausible.
Defined.

Lemma posted_requests_are_well_formed_witness :
  let s := UploadSection.run (Some "true"%string) UploadSection.mounted
                             selectAndLoad in
  Hook.trace (UseVideoAnalysis.world s)
  = [Hook.Fetch (ApiReal.mkForm batVideo 12 (Some 45%Q) 1.0)]
  /\ Forall wellFormed (Hook.trace (UseVideoAnalysis.world s)).
Proof.
  split; [reflexivity|].
  apply (@posted_requests_are_well_formed (Some "true"%string) selectAndLoad).
  exact selectAndLoad_plausible.
Defined.

(** ** The component as wired: remote success, and a fresh file *)

Section RemoteSuccess.
Import Hook UploadSection.
Local Open Scope string_scope.

Variable REACT_APP_USE_REAL_API : option string.

(** When the pending remote call of the component succeeds, the hook
    stores whatever [data] the body carries, shows the success alert
    and lowers the flag.  With a document the page stores it too and
    opens the results section; with a body that has no [data] the hook's
    cell is emptied while the page keeps its document and its section. *)
Theorem remote_success_is_shown :
  forall (s : Sys) (id : nat) (body : ApiReal.Body),
    UseVideoAnalysis.tasks s = [(id, AwaitApi None)] ->
    ApiReal.success body = true ->
    let done := Alert.mk "Analyse erfolgreich mit Backend abgeschlossen"
                         Alert.success in
    let s' := step REACT_APP_USE_REAL_API s
                   (ApiSettled id (ApiReal.Response true body)) in
    results (UseVideoAnalysis.world s') = ApiReal.data body
    /\ alert (stateOf s') = Some done
    /\ loading (UseVideoAnalysis.world s') = false
    /\ UseVideoAnalysis.tasks s' = []
    /\ trace (UseVideoAnalysis.world s')
       = (trace (UseVideoAnalysis.world s) ++ [AlertCall done])%list
    /\ match ApiReal.data body with
       | Some r =>
           pageResults (stateOf s') = Some r
           /\ activeSection (stateOf s') = "results"
       | None =>
           pageResults (stateOf s') = pageResults (stateOf s)
           /\ activeSection (stateOf s') = activeSection (stateOf s)
       end.
Proof.
  intros s id body Ht Hok done s'. subst s'.
  cbn [step]. unfold hookStep, UseVideoAnalysis.step.
  rewrite Ht. cbn [UseVideoAnalysis.take]. rewrite Nat.eqb_refl.
  cbn [ApiReal.settle negb]. rewrite Hok. cbn [negb].
  rewrite afterApi_success_quiet by exact setter_is_quiet.
  destruct (ApiReal.data body) as [r|]; cbn; repeat split; reflexivity.
Qed.

(** Selecting a file resets the segment to [(0, 0)] and clears the
    alert, so that a click on the analyze button before the metadata
    has arrived is refused with the warning about the start time and
    posts nothing.  Closing the file dialog without a file changes
    nothing. *)
Theorem fresh_file_waits_for_metadata :
  forall (s : Sys) (f : File),
    loading (UseVideoAnalysis.world s) = false ->
    let s1 := step REACT_APP_USE_REAL_API s (FileSelected (Some f)) in
    let s2 := step REACT_APP_USE_REAL_API s1 AnalyzeClicked in
    step REACT_APP_USE_REAL_API s (FileSelected None) = s
    /\ videoFile (stateOf s1) = Some f
    /\ startTime (stateOf s1) = 0%Q
    /\ endTime (stateOf s1) = 0%Q
    /\ alert (stateOf s1) = None
    /\ alert (stateOf s2)
       = Some (Alert.mk "Startzeit muss kleiner als Endzeit sein."
                        Alert.warning)
    /\ trace (UseVideoAnalysis.world s2) = trace (UseVideoAnalysis.world s)
    /\ UseVideoAnalysis.tasks s2 = UseVideoAnalysis.tasks s.
Proof.
  intros s f Hl s1 s2.
  split; [destruct s as [[l r c t] ts n]; reflexivity|].
  subst s2 s1. cbn [step]. unfold analyzeDisabled, handleAnalyze.
  cbn. rewrite Hl. cbn. repeat split; reflexivity.
Qed.

(** Once the metadata of a fresh file has arrived with a positive
    duration, the segment is the whole video, and a click on the
    analyze button (real API switched on, nothing pending) posts
    exactly one request, for [0] to the duration with the sensitivity
    1.0, and raises the flag. *)
Theorem whole_video_is_the_default_request :
  forall (s : Sys) (f : File) (dur : Q),
    UseVideoAnalysis.useRealAPI REACT_APP_USE_REAL_API = true ->
    loading (UseVideoAnalysis.world s) = false ->
    (0 < dur)%Q ->
    let s' := run REACT_APP_USE_REAL_API s
                  [FileSelected (Some f); LoadedMetadata dur; AnalyzeClicked] in
    startTime (stateOf s') = 0%Q
    /\ endTime (stateOf s') = dur
    /\ duration (stateOf s') = dur
    /\ trace (UseVideoAnalysis.world s')
       = (trace (UseVideoAnalysis.world s)
            ++ [Fetch (ApiReal.mkForm f 0%Q (Some dur) 1.0%Q)])%list
    /\ loading (UseVideoAnalysis.world s') = true.
Proof.
  intros s f dur Hu Hl Hdur s'. subst s'.
  cbn [run fold_left step]. unfold analyzeDisabled, handleAnalyze.
  cbn [stateOf onState UseVideoAnalysis.world caller loading videoFile
       handleFileSelect onLoadedMetadata putAlert setEndTime setStartTime
       setDuration setVideoFile startTime endTime].
  rewrite Hl.
  assert (Hle : Qle_bool dur 0 = false) by (apply Qle_bool_false, Hdur).
  rewrite Hle.
  unfold hookStep, UseVideoAnalysis.step.
  rewrite (@analyzeVideo_posts _ UploadSection.setAlert _ _
             (ApiReal.mkForm f 0%Q (Some dur) 1.0%Q) _ Hu).
  - cbn. repeat split; reflexivity.
  - unfold ApiReal.validate. cbn [ApiReal.videoFile ApiReal.startTime
                                  ApiReal.endTime ApiReal.uploadSensitivity].
    change (Qle_bool 0 0) with true. cbn [negb]. rewrite Hle. reflexivity.
Qed.

(** [handleAnalyze] does not look at the loading flag: with the real
    API switched on, a file selected and a start that is not negative
    and lies before the end, every call of it posts a request and adds a
    pending call, whether or not one is pending already. *)
Theorem handleAnalyze_does_not_look_at_loading :
  forall (s : Sys) (f : File),
    UseVideoAnalysis.useRealAPI REACT_APP_USE_REAL_API = true ->
    videoFile (stateOf s) = Some f ->
    (0 <= startTime (stateOf s))%Q ->
    (startTime (stateOf s) < endTime (stateOf s))%Q ->
    let s' := handleAnalyze REACT_APP_USE_REAL_API s in
    trace (UseVideoAnalysis.world s')
    = (trace (UseVideoAnalysis.world s)
         ++ [Fetch (ApiReal.mkForm f (startTime (stateOf s))
                                   (Some (endTime (stateOf s))) 1.0%Q)])%list
    /\ UseVideoAnalysis.tasks s'
       = (UseVideoAnalysis.tasks s
            ++ [(S (UseVideoAnalysis.calls s), AwaitApi None)])%list
    /\ loading (UseVideoAnalysis.world s') = true.
Proof.
  intros s f Hu Hf H0 Hlt s'. subst s'. unfold handleAnalyze.
  rewrite Hf.
  assert (Hle : Qle_bool (endTime (stateOf s)) (startTime (stateOf s)) = false)
    by (apply Qle_bool_false, Hlt).
  rewrite Hle. unfold hookStep, UseVideoAnalysis.step.
  rewrite (@analyzeVideo_posts _ UploadSection.setAlert _ _
             (ApiReal.mkForm f (startTime (stateOf s))
                             (Some (endTime (stateOf s))) 1.0%Q) _ Hu).
  - cbn. repeat split; reflexivity.
  - unfold ApiReal.validate. cbn [ApiReal.videoFile ApiReal.startTime
                                  ApiReal.endTime ApiReal.uploadSensitivity].
    apply Qle_bool_iff in H0. rewrite H0. cbn [negb]. rewrite Hle.
    reflexivity.
Qed.

End RemoteSuccess.

Lemma handleAnalyze_does_not_look_at_loading_witness :
  let env := Some "true"%string in
  let once := UploadSection.run env UploadSection.mounted
                [UploadSection.FileSelected (Some batVideo);
                 UploadSection.LoadedMetadata 60;
                 UploadSection.AnalyzeClicked] in
  let twice := UploadSection.handleAnalyze env once in
  Hook.loading (UseVideoAnalysis.world once) = true
  /\ UseVideoAnalysis.tasks twice
     = [(1%nat, Hook.AwaitApi None); (2%nat, Hook.AwaitApi None)].
Proof.
  split; [reflexivity|].
  destruct (@handleAnalyze_does_not_look_at_loading (Some "true"%string)
              (UploadSection.run (Some "true"%string) UploadSection.mounted
                 [UploadSection.FileSelected (Some batVideo);
                  UploadSection.LoadedMetadata 60;
                  UploadSection.AnalyzeClicked])
              batVideo eq_refl eq_refl)
    as [_ [H _]].
  - vm_compute. discriminate.
  - vm_compute. reflexivity.
  - exact H.
Defined.

Lemma remote_success_is_shown_witness :
  let env := Some "true"%string in
  let s := UploadSection.run env UploadSection.mounted
             [UploadSection.FileSelected (Some batVideo);
              UploadSection.LoadedMetadata 60;
              UploadSection.AnalyzeClicked] in
  let s' := UploadSection.step env s (UploadSection.ApiSettled 1 (answer earlier)) in
  Hook.results (UseVideoAnalysis.world s') = Some earlier
  /\ UploadSection.pageResults (UploadSection.stateOf s') = Some earlier
  /\ UploadSection.activeSection (UploadSection.stateOf s') = "results"%string.
Proof.
  destruct (@remote_success_is_shown (Some "true"%string)
              (UploadSection.run (Some "true"%string) UploadSection.mounted
                 [UploadSection.FileSelected (Some batVideo);
                  UploadSection.LoadedMetadata 60;
                  UploadSection.AnalyzeClicked])
              1%nat (ApiReal.mkBody true None (Some earlier))
              eq_refl eq_refl)
    as [H1 [_ [_ [_ [_ [H2 H3]]]]]].
  split; [exact H1|]. split; [exact H2|exact H3].
Defined.

Lemma fresh_file_waits_for_metadata_witness :
  let env := Some "true"%string in
  let s2 := UploadSection.run env UploadSection.mounted
              [UploadSection.FileSelected (Some batVideo);
               UploadSection.AnalyzeClicked] in
  UploadSection.alert (UploadSection.stateOf s2)
  = Some (Alert.mk "Startzeit muss kleiner als Endzeit sein."%string
                   Alert.warning)
  /\ Hook.trace (UseVideoAnalysis.world s2) = [].
Proof.
  destruct (@fresh_file_waits_for_metadata (Some "true"%string)
              UploadSection.mounted batVideo eq_refl)
    as [_ [_ [_ [_ [_ [H1 [H2 _]]]]]]].
  split; [exact H1|exact H2].
Defined.

Lemma whole_video_is_the_default_request_witness :
  let s' := UploadSection.run (Some "true"%string) UploadSection.mounted
              [UploadSection.FileSelected (Some batVideo);
               UploadSection.LoadedMetadata 60;
               UploadSection.AnalyzeClicked] in
  Hook.trace (UseVideoAnalysis.world s')
  = [Hook.Fetch (ApiReal.mkForm batVideo 0%Q (Some 60%Q) 1.0%Q)]
  /\ Hook.loading (UseVideoAnalysis.world s') = true.
Proof.
  destruct (@whole_video_is_the_default_request (Some "true"%string)
              UploadSection.mounted batVideo 60%Q eq_refl eq_refl eq_refl)
    as [_ [_ [_ [H1 H2]]]].
  split; [exact H1|exact H2].
Defined.

(** ** The hook and a throwing [setAlert] *)

Section ThrowingAlert.
Import Hook UseVideoAnalysis.
Local Open Scope string_scope.

Variable C : Type.
Variable setAlert : Alert.t -> C -> C * Outcome unit.

(** The success alert of the remote path is raised inside the inner
    [try].  If [setAlert] throws there, the inner [catch] takes the
    exception for a failure of the backend: the call goes on exactly as
    after a remote failure with that exception, from the state in which
    the remote result is already stored, and so ends in the demo
    data. *)
Theorem alert_failure_is_taken_for_backend_failure :
  forall (v : option AnalysisResult) (e : JsError) (w : World C),
    snd (setAlert backendDone (caller w)) = Thrown e ->
    afterApi setAlert (Returned v) w
    = afterApi setAlert (Thrown e)
        (mkWorld (loading w) v (fst (setAlert backendDone (caller w)))
                 (trace w ++ [AlertCall backendDone])).
Proof.
  intros v e w H.
  unfold afterApi, guarded, tryCatch, bind, setResults, callSetAlert.
  cbn [caller loading results trace].
  fold backendDone.
  destruct (setAlert backendDone (caller w)) as [c' o]. cbn in H. subst o.
  reflexivity.
Qed.

(** The two versions of the hook differ on an exception raised after
    the timer: when the success alert throws [e] and the error alert of
    the handler returns normally, the current hook rethrows [e] to its
    caller while the first version returns [undefined]; both have stored
    the demo document, raised the error alert that names [e.message],
    and lowered the flag. *)
Theorem versions_differ_on_rethrow :
  forall (rnd : nat -> Q) (e : JsError) (w : World C),
    let failed := Alert.mk ("Fehler: " ++ Js.message e) Alert.error in
    let c1 := fst (setAlert demoDone (caller w)) in
    let c1' := fst (setAlert demoDoneV1 (caller w)) in
    snd (setAlert demoDone (caller w)) = Thrown e ->
    snd (setAlert demoDoneV1 (caller w)) = Thrown e ->
    snd (setAlert failed c1) = Returned tt ->
    snd (setAlert failed c1') = Returned tt ->
    afterDelay setAlert rnd w
    = (mkWorld false (Some (Dummy.dummyResult rnd))
               (fst (setAlert failed c1))
               ((trace w ++ [AlertCall demoDone]) ++ [AlertCall failed]),
       Thrown e)
    /\ afterDelayV1 setAlert rnd w
       = (mkWorld false (Some (Dummy.dummyResultV1 rnd))
                  (fst (setAlert failed c1'))
                  ((trace w ++ [AlertCall demoDoneV1]) ++ [AlertCall failed]),
          Returned (Finished None)).
Proof.
  intros rnd e w failed c1 c1' H1 H1' H2 H2'. subst c1 c1'.
  unfold afterDelay, afterDelayV1, guarded, guardedV1, tryCatch, bind,
    setResults, callSetAlert, throw, ret, setLoading.
  cbn [caller loading results trace fst snd].
  fold demoDone. fold demoDoneV1. fold failed.
  destruct (setAlert demoDone (caller w)) as [c o].
  destruct (setAlert demoDoneV1 (caller w)) as [c' o'].
  cbn in H1, H1', H2, H2'. subst o o'.
  cbn [caller loading results trace fst snd].
  subst failed.
  destruct (setAlert _ c) as [d q].
  destruct (setAlert _ c') as [d' q'].
  cbn in H2, H2'. subst q q'. split; reflexivity.
Qed.

End ThrowingAlert.

(** A caller whose [setAlert] throws on success alerts only, and counts
    its calls. *)
Definition pickyAlert (a : Alert.t) (n : nat) : nat * Outcome unit :=
  match Alert.type a with
  | Alert.success => (S n, Thrown (mkError "no room for good news"))
  | _ => (S n, Returned tt)
  end.

Lemma alert_failure_is_taken_for_backend_failure_witness :
  let w0 := Hook.mkWorld true None 0%nat [] in
  snd (UseVideoAnalysis.afterApi pickyAlert (Returned (Some earlier)) w0)
  = Returned (Hook.Suspended Hook.AwaitDelay)
  /\ Hook.results (fst (UseVideoAnalysis.afterApi pickyAlert
                          (Returned (Some earlier)) w0))
     = Some earlier.
Proof.
  cbv zeta.
  rewrite (@alert_failure_is_taken_for_backend_failure nat pickyAlert
             (Some earlier) (mkError "no room for good news")
             (Hook.mkWorld true None 0%nat []) eq_refl).
  split; reflexivity.
Defined.

Lemma versions_differ_on_rethrow_witness :
  let w0 := Hook.mkWorld true None 0%nat [] in
  snd (UseVideoAnalysis.afterDelay pickyAlert halves w0)
  = Thrown (mkError "no room for good news")
  /\ snd (UseVideoAnalysis.afterDelayV1 pickyAlert halves w0)
     = Returned (Hook.Finished None).
Proof.
  destruct (@versions_differ_on_rethrow nat pickyAlert halves
              (mkError "no room for good news")
              (Hook.mkWorld true None 0%nat [])
              eq_refl eq_refl eq_refl eq_refl) as [H1 H2].
  cbv zeta. rewrite H1, H2. split; reflexivity.
Defined.

(** ** The [Settings] component over whole runs *)

Section SettingsRuns.
Import Settings.
Local Open Scope Z_scope.

(** The values the slider has delivered, in order. *)
Definition inputs (evs : list Event) : list Q :=
  flat_map (fun ev => match ev with
                      | Change v => [v]
                      | Elapse _ => []
                      end) evs.

(** Time does not run backwards. *)
Definition forward (ev : Event) : Prop :=
  match ev with
  | Elapse dt => 0 <= dt
  | Change _ => True
  end.

Definition committed (st : State) : list Q := map snd (commits st).

(** What a run from the initial state keeps. *)
Definition Tracked (evs : list Event) (st : State) : Prop :=
  single st
  /\ (forall tm, In tm (timers st) -> value tm = tempSensitivity st)
  /\ tempSensitivity st = last (inputs evs) 0.5%Q
  /\ incl (committed st) (inputs evs)
  /\ (List.length (commits st) + List.length (timers st)
      <= List.length (inputs evs))%nat
  /\ sensitivity st = last (committed st) 0.5%Q.

Lemma inputs_snoc (evs : list Event) (ev : Event) :
  inputs (evs ++ [ev])
  = (inputs evs ++ match ev with Change v => [v] | Elapse _ => [] end)%list.
Proof.
  unfold inputs. rewrite flat_map_app. cbn. rewrite app_nil_r. reflexivity.
Qed.

Lemma last_in {A : Type} (l : list A) (d : A) : l <> [] -> In (last l d) l.
Proof.
  induction l as [|x l IH]; [congruence|]. intros _.
  destruct l as [|y l]; [left; reflexivity|].
  right. apply IH. discriminate.
Qed.

Lemma tracked_step (evs : list Event) (st : State) (ev : Event) :
  forward ev -> Tracked evs st -> Tracked (evs ++ [ev]) (step st ev).
Proof.
  intros Hev [Hs [Hv [Ht [Hi [Hn Hc]]]]].
  unfold Tracked. rewrite inputs_snoc.
  destruct ev as [v|dt]; cbn [step].
  - pose proof (@step_keeps_single st (Change v) Hs I) as Hs'.
    cbn [step] in Hs'. rewrite handleChange_single in Hs' by exact Hs.
    rewrite handleChange_single by exact Hs.
    split; [exact Hs'|].
    cbn [timers tempSensitivity commits sensitivity committed].
    split; [intros tm [<-|[]]; reflexivity|].
    split; [rewrite last_last; reflexivity|].
    split; [apply incl_appl, Hi|].
    split; [rewrite length_app; cbn; lia|exact Hc].
  - rewrite app_nil_r. cbn in Hev.
    destruct Hs as [Hnil|[tm [Htm [Hr [Hid Hdue]]]]].
    + assert (E : elapse dt st
                  = mkState (sensitivity st) (tempSensitivity st)
                            (debounceTimeout st) [] (lastId st) (now st + dt)
                            (commits st))
        by (unfold elapse; rewrite Hnil; reflexivity).
      rewrite E. split; [left; reflexivity|].
      cbn [timers tempSensitivity commits sensitivity committed].
      split; [intros tm []|]. split; [exact Ht|]. split; [exact Hi|].
      split; [cbn; lia|exact Hc].
    + destruct (Z.lt_ge_cases (now st + dt) (due tm)) as [Hlt|Hge].
      * rewrite (@elapse_before_due dt _ _ Htm Hlt).
        split; [right; exists tm; cbn; repeat split; assumption|].
        cbn [timers tempSensitivity commits sensitivity committed].
        split; [intros tm' Hin; apply Hv; rewrite Htm; exact Hin|].
        split; [exact Ht|]. split; [exact Hi|].
        split; [rewrite Htm in Hn; exact Hn|exact Hc].
      * rewrite (@elapse_past_due dt _ _ Htm Hge).
        assert (Hval : value tm = tempSensitivity st)
          by (apply Hv; rewrite Htm; left; reflexivity).
        unfold fire. split; [left; reflexivity|].
        cbn [timers tempSensitivity commits sensitivity committed].
        rewrite Htm in Hn. cbn [List.length] in Hn.
        split; [intros tm' []|].
        split; [rewrite Hval; destruct (Qeq_bool _ _); exact Ht|].
        split.
        -- unfold committed. cbn [commits]. rewrite map_app. cbn [map snd].
           apply incl_app; [exact Hi|].
           intros x [<-|[]]. rewrite Hval, Ht. apply last_in.
           destruct (inputs evs); [cbn in Hn; lia|discriminate].
        -- split; [rewrite length_app; cbn; lia|].
           unfold committed. cbn [commits]. rewrite map_app. cbn [map snd].
           rewrite last_last. reflexivity.
Qed.

Lemma tracked_run (evs : list Event) :
  Forall forward evs -> Tracked evs (run initial evs).
Proof.
  induction evs as [|ev evs IH] using rev_ind; intros Hall.
  - split; [left; reflexivity|]. split; [intros tm []|].
    split; [reflexivity|]. split; [intros x []|].
    split; [cbn; lia|reflexivity].
  - apply Forall_app in Hall. destruct Hall as [Hevs Hev].
    inversion Hev; subst.
    unfold run. rewrite fold_left_app. cbn [fold_left].
    apply tracked_step; [assumption|apply IH, Hevs].
Qed.

(** The value the slider shows is always the latest input (0.5 before
    the first one), whatever the timers do in between. *)
Theorem slider_shows_latest_input :
  forall evs : list Event,
    Forall forward evs ->
    tempSensitivity (run initial evs) = last (inputs evs) 0.5%Q.
Proof.
  intros evs Hall. apply (tracked_run Hall).
Qed.

(** Every committed value is one the slider delivered, there are never
    more commits than inputs, and the committed sensitivity is the
    value of the latest commit (0.5 before the first one). *)
Theorem commits_come_from_inputs :
  forall evs : list Event,
    Forall forward evs ->
    let st := run initial evs in
    incl (committed st) (inputs evs)
    /\ (List.length (commits st) <= List.length (inputs evs))%nat
    /\ sensitivity st = last (committed st) 0.5%Q.
Proof.
  intros evs Hall st.
  destruct (tracked_run Hall) as [_ [_ [_ [Hi [Hn Hc]]]]].
  split; [exact Hi|]. split; [fold st in Hn; lia|exact Hc].
Qed.

(** Inputs that are each followed by a pause of 300 ms or more. *)
Definition spaced (vgs : list (Q * Z)) : list Event :=
  flat_map (fun vg => [Change (fst vg); Elapse (snd vg)]) vgs.

(** Without a burst nothing is lost: starting with no timer pending,
    when every input is followed by at least 300 ms of silence, every
    input is committed, in order, and no timer is left pending. *)
Theorem spaced_inputs_all_commit :
  forall (vgs : list (Q * Z)) (st : State),
    timers st = [] ->
    Forall (fun vg => 300 <= snd vg) vgs ->
    let st' := run st (spaced vgs) in
    committed st' = (committed st ++ map fst vgs)%list
    /\ timers st' = []
    /\ sensitivity st' = last (map fst vgs) (sensitivity st).
Proof.
  induction vgs as [|[v g] vgs IH]; intros st Hnil Hall.
  - cbn. rewrite app_nil_r. repeat split. exact Hnil.
  - inversion Hall as [|? ? Hg Hrest]; subst. cbn [snd] in Hg.
    cbn [spaced flat_map app run fold_left step fst snd].
    rewrite handleChange_single by (left; exact Hnil).
    match goal with |- context [elapse g ?s] =>
      rewrite (@elapse_past_due g s
                 (mkTimer (S (lastId st)) (now st + 300) v) eq_refl)
        by (cbn; lia)
    end.
    unfold fire. cbn [sensitivity tempSensitivity debounceTimeout timers
                      lastId now commits due value].
    match goal with |- context [fold_left step _ ?s] =>
      specialize (IH s eq_refl Hrest) end.
    cbv zeta in IH. unfold run, spaced in IH.
    destruct IH as [H1 [H2 H3]].
    split; [|split; [exact H2|]].
    + rewrite H1. unfold committed. cbn [commits map fst].
      rewrite map_app, <- app_assoc. reflexivity.
    + rewrite H3. cbn [sensitivity map fst].
      destruct (map fst vgs) as [|x xs]; [reflexivity|].
      change (last (x :: xs) v = last (x :: xs) (sensitivity st)).
      apply last_skips_default.
Qed.

End SettingsRuns.

Definition dragAndWait : list Settings.Event :=
  [Settings.Change 0.3%Q; Settings.Elapse 100; Settings.Change 0.4%Q;
   Settings.Elapse 300; Settings.Change 0.9%Q; Settings.Elapse 50].

Lemma dragAndWait_forward : Forall forward dragAndWait.
Proof. repeat constructor; cbn; lia. Qed.

Lemma slider_shows_latest_input_witness :
  Settings.tempSensitivity (Settings.run Settings.initial dragAndWait)
  = 0.9%Q.
Proof.
  rewrite (@slider_shows_latest_input dragAndWait dragAndWait_forward).
  reflexivity.
Defined.

Lemma commits_come_from_inputs_witness :
  let st := Settings.run Settings.initial dragAndWait in
  incl (committed st) [0.3%Q; 0.4%Q; 0.9%Q]
  /\ (List.length (Settings.commits st) <= 3)%nat
  /\ Settings.sensitivity st = 0.4%Q.
Proof.
  destruct (@commits_come_from_inputs dragAndWait dragAndWait_forward)
    as [H1 [H2 H3]].
  split; [exact H1|]. split; [exact H2|]. rewrite H3. reflexivity.
Defined.

Lemma spaced_inputs_all_commit_witness :
  let st' := Settings.run Settings.initial
               (spaced [(0.3%Q, 300%Z); (0.4%Q, 1000%Z)]) in
  committed st' = [0.3%Q; 0.4%Q]
  /\ Settings.timers st' = []
  /\ Settings.sensitivity st' = 0.4%Q.
Proof.
  apply (@spaced_inputs_all_commit [(0.3%Q, 300%Z); (0.4%Q, 1000%Z)]
           Settings.initial eq_refl).
  repeat constructor; cbn; lia.
Defined.

(** ** The synthesized document: ranges and timestamps *)

Section DummyRanges.
Import Dummy.
Local Open Scope Z_scope.

Definition between (lo hi z : Z) : Prop := lo <= z <= hi.

Lemma floorRandom_between (rnd : nat -> Q) (k : nat) (n off : Z) :
  unitDraws rnd -> 0 < n ->
  between off (off + n - 1) (floorRandom (rnd k) n + off).
Proof.
  intros Hr Hn. destruct (Hr k) as [H0 H1].
  pose proof (@floorRandom_range (rnd k) n H0 H1 Hn). unfold between. lia.
Qed.

(** Every field of the document the current hook synthesizes lies in
    the range its formula allows: 100 to 599 frames, 10 to 59
    detections, a start point in [[10,59] x [20,69]] and an end point in
    [[60,109] x [70,119]], 10 to 59 positions with coordinates in
    [[0,99]], widths in [[10,29]] and heights in [[15,44]], 50 to 149
    movement entries with counts in [[0,4]]; both series are numbered
    1, 2, 3, ...; and a bat is reported exactly when the second draw
    exceeds 0.3. *)
Theorem dummy_fields_in_range :
  forall rnd : nat -> Q,
    unitDraws rnd ->
    let d := dummyResult rnd in
    between 100 599 (totalFrames d)
    /\ between 10 59 (detectionCount d)
    /\ between 10 59 (Point.x (startPoint d))
    /\ between 20 69 (Point.y (startPoint d))
    /\ between 60 109 (Point.x (endPoint d))
    /\ between 70 119 (Point.y (endPoint d))
    /\ between 10 59 (Z.of_nat (List.length (positions d)))
    /\ between 50 149 (Z.of_nat (List.length (movementsPerFrame d)))
    /\ Forall (fun p => between 0 99 (Position.x p)
                        /\ between 0 99 (Position.y p)
                        /\ between 10 29 (Position.width p)
                        /\ between 15 44 (Position.height p))
              (positions d)
    /\ Forall (fun m => between 0 4 (Movement.count m)) (movementsPerFrame d)
    /\ map Position.frame (positions d)
       = map (fun i => Z.of_nat i + 1) (seq 0 (List.length (positions d)))
    /\ map Movement.frame (movementsPerFrame d)
       = map (fun i => Z.of_nat i + 1)
             (seq 0 (List.length (movementsPerFrame d)))
    /\ (batDetected d = true <-> (0.3 < rnd 1%nat)%Q).
Proof.
  intros rnd Hr d. subst d.
  cbn [dummyResult totalFrames detectionCount startPoint endPoint positions
       movementsPerFrame batDetected Point.x Point.y].
  unfold arrayFrom. rewrite !length_map, !length_seq, !map_map.
  cbn [Position.frame Movement.frame].
  pose proof (@floorRandom_between rnd 8%nat 50 10 Hr eq_refl) as Hn.
  split; [apply (@floorRandom_between rnd 0%nat 500 100 Hr eq_refl)|].
  split; [apply (@floorRandom_between rnd 2%nat 50 10 Hr eq_refl)|].
  split; [apply (@floorRandom_between rnd 3%nat 50 10 Hr eq_refl)|].
  split; [apply (@floorRandom_between rnd 4%nat 50 20 Hr eq_refl)|].
  split; [apply (@floorRandom_between rnd 5%nat 50 60 Hr eq_refl)|].
  split; [apply (@floorRandom_between rnd 6%nat 50 70 Hr eq_refl)|].
  split; [unfold between in *; lia|].
  split.
  { match goal with |- between _ _ (Z.of_nat (Z.to_nat (floorRandom (rnd ?k) 100 + 50))) =>
      pose proof (@floorRandom_between rnd k 100 50 Hr eq_refl) as Hm end.
    unfold between in *. lia. }
  split.
  { apply Forall_forall. intros p Hp. apply in_map_iff in Hp.
    destruct Hp as [i [<- _]].
    cbn [Position.x Position.y Position.width Position.height].
    split; [pose proof (@floorRandom_between rnd (9 + 4 * i) 100 0 Hr eq_refl) as H;
            unfold between in *; lia|].
    split; [pose proof (@floorRandom_between rnd (10 + 4 * i) 100 0 Hr eq_refl) as H;
            unfold between in *; lia|].
    split; [apply (@floorRandom_between rnd (11 + 4 * i) 20 10 Hr eq_refl)|
            apply (@floorRandom_between rnd (12 + 4 * i) 30 15 Hr eq_refl)]. }
  split.
  { apply Forall_forall. intros m Hm. apply in_map_iff in Hm.
    destruct Hm as [i [<- _]]. cbn [Movement.count].
    match goal with |- between _ _ (floorRandom (rnd ?k) 5) =>
      pose proof (@floorRandom_between rnd k 5 0 Hr eq_refl) as H end.
    unfold between in *. lia. }
  split; [reflexivity|]. split; [reflexivity|].
  rewrite negb_true_iff. apply Qle_bool_false.
Qed.

(** The timestamp of entry [i] reads "00:00:" and the frame number in
    two digits: it has eight characters and its last two read back as
    [i + 1]. *)
Definition timestampReads (i : nat) : bool :=
  Nat.eqb (String.length (timestampOf i)) 8
  && String.eqb (substring 0 6 (timestampOf i)) "00:00:"
  && match readZ (substring 6 2 (timestampOf i)) with
     | Some z => Z.eqb z (Z.of_nat i + 1)
     | None => false
     end.

Lemma timestamps_below_99 :
  forallb timestampReads (seq 0 99) = true.
Proof. vm_compute. reflexivity. Qed.

(** The current hook synthesizes at most 59 positions, so each of its
    timestamps is "00:00:" followed by the frame number in two digits,
    a number of seconds below 60. *)
Theorem dummy_timestamps_are_seconds :
  forall rnd : nat -> Q,
    unitDraws rnd ->
    Forall (fun p => String.length (Position.timestamp p) = 8%nat
                     /\ substring 0 6 (Position.timestamp p) = "00:00:"%string
                     /\ readZ (substring 6 2 (Position.timestamp p))
                        = Some (Position.frame p)
                     /\ between 1 59 (Position.frame p))
           (positions (dummyResult rnd)).
Proof.
  intros rnd Hr.
  pose proof (@floorRandom_between rnd 8%nat 50 10 Hr eq_refl) as Hn.
  cbn [dummyResult positions]. unfold arrayFrom.
  apply Forall_forall. intros p Hp. apply in_map_iff in Hp.
  destruct Hp as [i [<- Hi]]. apply in_seq in Hi.
  cbn [Position.timestamp Position.frame].
  assert (Hlt : (i < 99)%nat) by (unfold between in Hn; lia).
  pose proof timestamps_below_99 as Hall.
  rewrite forallb_forall in Hall.
  specialize (Hall i). unfold timestampReads in Hall.
  assert (Hin : In i (seq 0 99)) by (apply in_seq; lia).
  apply Hall in Hin. apply andb_prop in Hin. destruct Hin as [Hin H3].
  apply andb_prop in Hin. destruct Hin as [H1 H2].
  apply Nat.eqb_eq in H1. apply String.eqb_eq in H2.
  destruct (readZ (substring 6 2 (timestampOf i))) as [z|]; [|discriminate].
  apply Z.eqb_eq in H3. subst z.
  split; [exact H1|]. split; [exact H2|]. split; [reflexivity|].
  unfold between in *. lia.
Qed.

(** The first version of the hook numbers a hundred positions the same
    way, so from the sixtieth on its timestamps count 60 seconds and
    more, and the hundredth has nine characters. *)
Lemma first_version_timestamps_overflow (rnd : nat -> Q) :
  map Position.timestamp (skipn 98 (positions (dummyResultV1 rnd)))
  = ["00:00:99"%string; "00:00:100"%string].
Proof. reflexivity. Qed.

End DummyRanges.

Lemma dummy_fields_in_range_witness :
  between 100 599 (totalFrames (Dummy.dummyResult halves))
  /\ between 10 59 (Z.of_nat (List.length (positions (Dummy.dummyResult halves)))).
Proof.
  destruct (@dummy_fields_in_range halves halves_are_draws)
    as [H1 [_ [_ [_ [_ [_ [H2 _]]]]]]].
  split; [exact H1|exact H2].
Defined.

Lemma dummy_timestamps_are_seconds_witness :
  Forall (fun p => String.length (Position.timestamp p) = 8%nat
                   /\ substring 0 6 (Position.timestamp p) = "00:00:"%string
                   /\ readZ (substring 6 2 (Position.timestamp p))
                      = Some (Position.frame p)
                   /\ between 1 59 (Position.frame p))
         (positions (Dummy.dummyResult halves)).
Proof.
  apply (@dummy_timestamps_are_seconds halves halves_are_draws).
Defined.

(** ** components/UploadSection.jsx: the preview URL

    [handleFileSelect] creates an object URL for the chosen file, and
    the effect [useEffect(() => () => { if (videoUrl)
    URL.revokeObjectURL(videoUrl); }, [videoUrl])] revokes the URL of
    the render before when [videoUrl] has changed, and the last one when
    the component is unmounted. *)

Module Preview.

(** The cell [videoUrl] ([None] for [null]), and the browser's side: the
    object URLs created and not yet revoked, oldest first, and how many
    have been created.  URLs are numbered from 1 in the order of their
    creation; [URL.createObjectURL] never returns the same one twice. *)
Record State : Type := mkState {
  videoUrl : option nat;
  live : list nat;
  minted : nat;
  mounted : bool
}.

Definition initial : State := mkState None [] 0 true.

(** [URL.revokeObjectURL(u)]. *)
Definition revoke (u : nat) (l : list nat) : list nat :=
  filter (fun x => negb (Nat.eqb x u)) l.

(** The cleanup of the effect, for the [videoUrl] it has captured. *)
Definition cleanup (captured : option nat) (st : State) : State :=
  match captured with
  | Some u => mkState (videoUrl st) (revoke u (live st)) (minted st)
                      (mounted st)
  | None => st
  end.

(** [handleFileSelect], as far as the URL goes: nothing without a file,
    else [URL.createObjectURL(file)] and [setVideoUrl(url)]. *)
Definition handleFileSelect (file : option File) (st : State) : State :=
  match file with
  | None => st
  | Some _ =>
      let url := S (minted st) in
      mkState (Some url) (live st ++ [url]) url (mounted st)
  end.

Inductive Event : Type :=
| FileSelected (file : option File)
| Unmount.

(** An event and the effects React runs after it: the cleanup of the
    previous render when [videoUrl] has changed, the cleanup of the last
    render on unmount.  An unmounted component receives no events. *)
Definition step (st : State) (ev : Event) : State :=
  if negb (mounted st) then st
  else
    match ev with
    | FileSelected file =>
        let st' := handleFileSelect file st in
        match file with
        | Some _ => cleanup (videoUrl st) st'
        | None => st'
        end
    | Unmount =>
        let st' := cleanup (videoUrl st) st in
        mkState (videoUrl st') (live st') (minted st') false
    end.

Definition run (st : State) (evs : list Event) : State :=
  fold_left step evs st.

End Preview.

Section PreviewLifetime.
Import Preview.

Definition shown (st : State) : list nat :=
  match videoUrl st with
  | Some u => [u]
  | None => []
  end.

Definition Tidy (st : State) : Prop :=
  (mounted st = true -> live st = shown st)
  /\ (mounted st = false -> live st = [])
  /\ (forall u, videoUrl st = Some u -> (u <= minted st)%nat).

Lemma revoke_only (u : nat) : revoke u [u] = [].
Proof. unfold revoke. cbn. rewrite Nat.eqb_refl. reflexivity. Qed.

Lemma revoke_older (u v : nat) : (u < v)%nat -> revoke u [u; v] = [v].
Proof.
  intros H. unfold revoke. cbn. rewrite Nat.eqb_refl. cbn.
  destruct (Nat.eqb_spec v u); [lia|reflexivity].
Qed.

Lemma step_tidy (st : State) (ev : Event) : Tidy st -> Tidy (step st ev).
Proof.
  intros [Hm [Hu Hle]]. unfold step.
  destruct (mounted st) eqn:M; cbn [negb].
  2:{ split; [rewrite M; discriminate|]. split; [intros _; apply Hu; reflexivity|exact Hle]. }
  specialize (Hm eq_refl). unfold shown in Hm.
  destruct ev as [[f|]|]; cbn [handleFileSelect].
  - destruct (videoUrl st) as [u|] eqn:V; cbn [cleanup videoUrl live minted mounted].
    + rewrite Hm. cbn [app]. specialize (Hle u eq_refl).
      rewrite revoke_older by lia.
      split; [reflexivity|]. split; [rewrite M; discriminate|].
      intros v [= <-]. cbn. lia.
    + rewrite Hm. split; [reflexivity|]. split; [rewrite M; discriminate|].
      intros v [= <-]. cbn. lia.
  - split; [intros _; exact Hm|]. split; [rewrite M; discriminate|exact Hle].
  - destruct (videoUrl st) as [u|] eqn:V; cbn [cleanup videoUrl live minted mounted].
    + rewrite Hm, revoke_only. split; [discriminate|].
      split; [reflexivity|]. intros v Hv. rewrite V in Hv. apply Hle, Hv.
    + rewrite Hm. split; [discriminate|]. split; [reflexivity|].
      intros v Hv. rewrite V in Hv. discriminate.
Qed.

(** Whatever files are selected, the component holds exactly the object
    URL of the file on show and no other, and after it is unmounted it
    holds none: every URL that was created has been revoked. *)
Theorem preview_urls_do_not_leak :
  forall evs : list Event,
    let st := run initial evs in
    (mounted st = true -> live st = shown st)
    /\ (mounted st = false -> live st = [])
    /\ (List.length (live st) <= 1)%nat.
Proof.
  intros evs st.
  assert (T : Tidy st).
  { subst st. assert (T0 : Tidy initial).
    { split; [reflexivity|]. split; [discriminate|discriminate]. }
    revert T0. generalize initial.
    induction evs as [|ev evs IH]; intros s0 T0; [exact T0|].
    cbn [run fold_left]. apply IH, step_tidy, T0. }
  destruct T as [Hm [Hu _]].
  split; [exact Hm|]. split; [exact Hu|].
  destruct (mounted st) eqn:M.
  - rewrite (Hm eq_refl). unfold shown. destruct (videoUrl st); cbn; lia.
  - rewrite (Hu eq_refl). cbn. lia.
Qed.

(** Between the handler and the cleanup that follows it the old and the
    new URL are both alive, and never more than these two. *)
Lemma overlap_is_at_most_two (st : State) (file : option File) :
  Tidy st -> (List.length (live (handleFileSelect file st)) <= 2)%nat.
Proof.
  intros [Hm [Hu _]]. destruct file as [f|]; cbn [handleFileSelect live].
  - rewrite length_app. cbn.
    destruct (mounted st); [rewrite (Hm eq_refl)|rewrite (Hu eq_refl)];
      unfold shown; destruct (videoUrl st); cbn; lia.
  - destruct (mounted st); [rewrite (Hm eq_refl)|rewrite (Hu eq_refl)];
      unfold shown; destruct (videoUrl st); cbn; lia.
Qed.

End PreviewLifetime.

(** ** The [Charts] component

    One effect, keyed on [results]: nothing without a document; else a
    line chart of the positions and a bar chart of the movements, and a
    cleanup that destroys both. *)

Module Charts.
Local Open Scope string_scope.

Inductive Kind : Type := line | bar.

Record Dataset : Type := mkDataset { label : string; data : list Z }.

(** The [type] and [data] of a chart configuration (colours, titles and
    scales are constants). *)
Record Config : Type := mkConfig {
  type : Kind;
  labels : list Z;
  datasets : list Dataset
}.

Definition trackingConfig (results : AnalysisResult) : Config :=
  mkConfig line
    (map Position.frame (positions results))
    [mkDataset "X-Position" (map Position.x (positions results));
     mkDataset "Y-Position" (map Position.y (positions results))].

Definition movementConfig (results : AnalysisResult) : Config :=
  mkConfig bar
    (map Movement.frame (movementsPerFrame results))
    [mkDataset "Bewegungen pro Frame"
               (map Movement.count (movementsPerFrame results))].

(** The prop [results], the charts constructed and not yet destroyed
    (each under the number of its construction), the charts the pending
    cleanup has captured, the number of charts constructed so far, and
    whether the component is mounted. *)
Record State : Type := mkState {
  results : option AnalysisResult;
  live : list (nat * Config);
  captured : list nat;
  made : nat;
  mounted : bool
}.

(** [chart.destroy()] for each captured chart. *)
Definition cleanup (st : State) : State :=
  mkState (results st)
          (filter (fun c => negb (existsb (Nat.eqb (fst c)) (captured st)))
                  (live st))
          [] (made st) (mounted st).

(** The body of the effect for the document [r]. *)
Definition effect (r : option AnalysisResult) (st : State) : State :=
  match r with
  | None => mkState r (live st) [] (made st) (mounted st)
  | Some doc =>
      let t := S (made st) in
      let m := S (S (made st)) in
      mkState r (live st ++ [(t, trackingConfig doc); (m, movementConfig doc)])
              [t; m] m (mounted st)
  end.

(** The component right after it is mounted with [r]. *)
Definition mount (r : option AnalysisResult) : State :=
  effect r (mkState None [] [] 0 true).

Inductive Event : Type :=
| NewResults (r : option AnalysisResult)   (* a render with another [results] *)
| Unmount.

Definition step (st : State) (ev : Event) : State :=
  if negb (mounted st) then st
  else
    match ev with
    | NewResults r => effect r (cleanup st)
    | Unmount =>
        let st' := cleanup st in
        mkState (results st') (live st') (captured st') (made st') false
    end.

Definition run (st : State) (evs : list Event) : State :=
  fold_left step evs st.

End Charts.

Section ChartsLifetime.
Import Charts.

Definition drawn (r : option AnalysisResult) : list Config :=
  match r with
  | Some doc => [trackingConfig doc; movementConfig doc]
  | None => []
  end.

(** Every dataset of the chart has one point per label. *)
Definition aligned (c : Config) : Prop :=
  Forall (fun d => List.length (data d) = List.length (labels c)) (datasets c).

Definition Neat (st : State) : Prop :=
  captured st = map fst (live st)
  /\ (mounted st = true -> map snd (live st) = drawn (results st))
  /\ (mounted st = false -> live st = []).

Lemma destroy_captured (l : list (nat * Config)) :
  filter (fun c => negb (existsb (Nat.eqb (fst c)) (map fst l))) l = [].
Proof.
  assert (G : forall ids, incl (map fst l) ids ->
                filter (fun c => negb (existsb (Nat.eqb (fst c)) ids)) l = []).
  { induction l as [|c l IH]; intros ids Hin; [reflexivity|]. cbn.
    assert (E : existsb (Nat.eqb (fst c)) ids = true).
    { apply existsb_exists. exists (fst c). split; [|apply Nat.eqb_refl].
      apply Hin. left. reflexivity. }
    rewrite E. cbn. apply IH. intros x Hx. apply Hin. right. exact Hx. }
  apply G, incl_refl.
Qed.

Lemma cleanup_empties (st : State) : Neat st -> live (cleanup st) = [].
Proof.
  intros [Hc _]. unfold cleanup. cbn [live]. rewrite Hc.
  apply destroy_captured.
Qed.

Lemma effect_neat (r : option AnalysisResult) (st : State) :
  live st = [] -> mounted st = true -> Neat (effect r st).
Proof.
  intros Hl Hm. destruct r as [doc|]; cbn [effect]; unfold Neat;
    cbn [captured live mounted results]; rewrite Hl, Hm; cbn;
    repeat split; try reflexivity; discriminate.
Qed.

Lemma step_neat (st : State) (ev : Event) : Neat st -> Neat (step st ev).
Proof.
  intros N. unfold step. destruct (mounted st) eqn:M; cbn [negb]; [|exact N].
  destruct ev as [r|].
  - apply effect_neat; [apply cleanup_empties, N|exact M].
  - unfold Neat. cbn [captured live mounted results cleanup].
    pose proof (cleanup_empties N) as E. unfold cleanup in E. cbn [live] in E.
    rewrite E. repeat split; try reflexivity; discriminate.
Qed.

Lemma drawn_aligned (r : option AnalysisResult) : Forall aligned (drawn r).
Proof.
  destruct r as [doc|]; [|constructor].
  repeat constructor; cbn; rewrite !length_map; reflexivity.
Qed.

(** However the document changes while the component is mounted, the
    charts alive are exactly the two drawn from the current document, or
    none without a document; the charts of earlier documents have been
    destroyed, and after the unmount none is left.  In every chart
    alive each dataset has one point per label. *)
Theorem charts_follow_the_document :
  forall (r0 : option AnalysisResult) (evs : list Event),
    let st := run (mount r0) evs in
    (mounted st = true -> map snd (live st) = drawn (results st))
    /\ (mounted st = false -> live st = [])
    /\ (List.length (live st) <= 2)%nat
    /\ Forall aligned (map snd (live st)).
Proof.
  intros r0 evs st.
  assert (N : Neat st).
  { subst st. assert (N0 : Neat (mount r0))
      by (apply effect_neat; reflexivity).
    revert N0. generalize (mount r0).
    induction evs as [|ev evs IH]; intros s0 N0; [exact N0|].
    cbn [run fold_left]. apply IH, step_neat, N0. }
  destruct N as [_ [Hm Hu]].
  split; [exact Hm|]. split; [exact Hu|].
  destruct (mounted st) eqn:M.
  - specialize (Hm eq_refl). split.
    + rewrite <- (length_map snd), Hm. destruct (results st); cbn; lia.
    + rewrite Hm. apply drawn_aligned.
  - rewrite (Hu eq_refl). split; [cbn; lia|constructor].
Qed.

End ChartsLifetime.

(** ** The page: [AppPage], [Sidebar], [MainContent] and the export
    buttons of [ResultsSection] *)

Module Page.
Local Open Scope string_scope.

(** What a section puts on the page. *)
Inductive View : Type :=
| HomeView
| UploadView
| ResultsView (results : AnalysisResult)
| NoResultsMessage            (* "Keine Analyseergebnisse verfügbar. ..." *)
| SettingsView.

(** Each section returns [null] unless it is [active]. *)
Definition HomeSection (active : bool) : list View :=
  if negb active then [] else [HomeView].

Definition UploadSection (active : bool) : list View :=
  if negb active then [] else [UploadView].

Definition Settings (active : bool) : list View :=
  if negb active then [] else [SettingsView].

Definition ResultsSection (active : bool) (results : option AnalysisResult)
  : list View :=
  if negb active then []
  else match results with
       | None => [NoResultsMessage]
       | Some r => [ResultsView r]
       end.

(** [MainContent]: the results section is mounted only under
    [results &&]. *)
Definition MainContent (activeSection : string)
           (results : option AnalysisResult) : list View :=
  HomeSection (String.eqb activeSection "home")
  ++ UploadSection (String.eqb activeSection "upload")
  ++ match results with
     | Some r => ResultsSection (String.eqb activeSection "results") (Some r)
     | None => []
     end
  ++ Settings (String.eqb activeSection "settings").

(** The ids of the links of [Sidebar]. *)
Definition sections : list string :=
  ["home"; "upload"; "results"; "settings"; "map"].

(** What a click on an export button does. *)
Inductive Effect : Type :=
| Downloaded (d : ExportJs.Download)
| WindowAlert (text : string).

(** [exportAsPNG(canvasRef)] for the value of [canvasRef.current]: the
    data URL of the canvas under the name "chart.png", or nothing
    without a canvas. *)
Definition exportAsPNG (current : option string) : list Effect :=
  match current with
  | None => []
  | Some dataUrl => [Downloaded (ExportJs.mkDownload "chart.png" "image/png" dataUrl)]
  end.

(** [exportAsPDFs()]. *)
Definition exportAsPDFs : list Effect := [WindowAlert "worked"].

Inductive Button : Type := CsvButton | PdfButton | PngButton.

(** The [onClick] handlers of [ResultsSection].  Its [canvasRef] is
    created with [useRef(null)] and handed to [Charts], which takes only
    [results] from its props and draws on refs of its own, so
    [canvasRef.current] stays [null]. *)
Definition click (b : Button) (results : AnalysisResult)
  : Outcome (list Effect) :=
  match b with
  | CsvButton =>
      match ExportFull.exportAsCSV (ToJs.result results) with
      | Returned d => Returned [Downloaded d]
      | Thrown e => Thrown e
      end
  | PdfButton => Returned exportAsPDFs
  | PngButton => Returned (exportAsPNG None)
  end.

End Page.

Section PageFacts.
Import Page.
Local Open Scope string_scope.

(** For every link of the sidebar and every state of the results, at
    most one section is on the page; the page is empty of sections
    exactly under "map", and under "results" while there is no document;
    and the message of [ResultsSection] for a missing document is never
    on the page. *)
Theorem sidebar_links_and_sections :
  forall (activeSection : string) (results : option AnalysisResult),
    In activeSection sections ->
    (List.length (MainContent activeSection results) <= 1)%nat
    /\ (MainContent activeSection results = [] <->
        activeSection = "map"
        \/ (activeSection = "results" /\ results = None))
    /\ ~ In NoResultsMessage (MainContent activeSection results).
Proof.
  intros a r Hin. cbn in Hin.
  destruct Hin as [<-|[<-|[<-|[<-|[<-|[]]]]]]; destruct r as [doc|]; cbn;
    (split; [lia|]); (split; [|intuition discriminate]);
    (split; intros H;
     [ first [ discriminate H
             | left; reflexivity
             | right; split; reflexivity ]
     | first [ reflexivity
             | destruct H as [H|[H H']]; congruence ] ]).
Qed.

(** Of the buttons that [ResultsSection] wires to [export.js], the CSV,
    the PDF and the PNG button save no file, whatever the document: the
    click on the CSV button throws "data.map is not a function", the
    click on the PDF button opens the alert "worked" and does nothing
    else, and the click on the PNG button does nothing at all.  (The
    JSON button is left out here.) *)
Theorem csv_pdf_png_buttons_save_nothing :
  forall results : AnalysisResult,
    click CsvButton results = Thrown (mkError "data.map is not a function")
    /\ click PdfButton results = Returned [WindowAlert "worked"]
    /\ click PngButton results = Returned []
    /\ forall (b : Button) (effects : list Effect) (d : ExportJs.Download),
         click b results = Returned effects -> ~ In (Downloaded d) effects.
Proof.
  intros r. repeat split.
  intros b effects d H Hin. destruct b; cbn in H.
  - discriminate H.
  - injection H as <-. destruct Hin as [Hin|[]]. discriminate Hin.
  - injection H as <-. destruct Hin.
Qed.

End PageFacts.

Lemma sidebar_links_and_sections_witness :
  (List.length (Page.MainContent "results" (Some earlier)) <= 1)%nat
  /\ (Page.MainContent "results" (Some earlier) = [] <->
      "results"%string = "map"%string
      \/ ("results"%string = "results"%string /\ Some earlier = None))
  /\ ~ In Page.NoResultsMessage (Page.MainContent "results" (Some earlier)).
Proof.
  apply (@sidebar_links_and_sections "results" (Some earlier)).
  right. right. left. reflexivity.
Defined.

Lemma csv_pdf_png_buttons_save_nothing_witness :
  Page.click Page.CsvButton earlier
  = Thrown (mkError "data.map is not a function")
  /\ Page.click Page.PdfButton earlier
     = Returned [Page.WindowAlert "worked"]
  /\ Page.click Page.PngButton earlier = Returned []
  /\ forall d : ExportJs.Download,
       ~ In (Page.Downloaded d) [Page.WindowAlert "worked"].
Proof.
  destruct (csv_pdf_png_buttons_save_nothing earlier) as [Hc [Hp [Hn Hd]]].
  repeat split; try assumption.
  intros d. exact (Hd Page.PdfButton _ d Hp).
Defined.

